(** * CivitAI_Downloader: the bulk downloader of [civitAI_downloader.py]

    A shallow embedding of the script and the properties of its filename
    sanitizer, destination classifier, download worker, input parser,
    thread-local session and retry loop.

    Conventions.
    - A Python [str] is a list of Unicode code points ([pystr]); a literal is
      written [py "..."].
    - Python's unbounded [int] is [Z].
    - Paths are POSIX paths ([os.path] is [posixpath]).
    - The filesystem is a finite map from paths below the working directory
      to file sizes; the network and the failing system calls are given by an
      [Env] that says what the outside world does during one worker call.
    - The workers of one attempt are run one after the other, which is one
      of the schedules of the thread pool.  Workers whose sanitized names
      differ write to different paths, so for them the order does not
      matter; two workers of one attempt with the same sanitized name share
      the temporary path and the destination, and what the pool can do with
      them beyond this schedule is outside the model. *)

From Stdlib Require Import ZArith NArith Ascii String.
From stdpp Require Import gmap list strings.

Local Open Scope Z_scope.

(** ** Python strings *)

Module PyStr.

Definition pystr := list N.

Definition py (s : string) : pystr := N_of_ascii <$> list_ascii_of_string s.

Definition ch (a : ascii) : N := N_of_ascii a.

(** [s.startswith(sub)] *)
Fixpoint startswith (sub s : pystr) : bool :=
  match sub, s with
  | [], _ => true
  | _ :: _, [] => false
  | a :: sub', b :: s' => N.eqb a b && startswith sub' s'
  end.

(** [s.find(sub)]: the lowest index where [sub] occurs, [None] for -1. *)
Fixpoint find (sub s : pystr) : option nat :=
  if startswith sub s then Some 0%nat
  else match s with
       | [] => None
       | _ :: s' => S <$> find sub s'
       end.

(** [sub in s] *)
Definition contains (sub s : pystr) : bool :=
  match find sub s with Some _ => true | None => false end.

(** [s.partition(sep)]: split at the first occurrence of [sep]. *)
Definition partition (sep s : pystr) : pystr * pystr * pystr :=
  match find sep s with
  | Some i => (take i s, sep, drop (i + length sep) s)
  | None => (s, [], [])
  end.

(** [s.rfind(c)] for a one-character [c]: the highest index, or -1. *)
Fixpoint rfind_from (c : N) (s : pystr) (i last : Z) : Z :=
  match s with
  | [] => last
  | x :: s' => rfind_from c s' (i + 1) (if N.eqb x c then i else last)
  end.

Definition rfind (c : N) (s : pystr) : Z := rfind_from c s 0 (-1).

(** [s[i:]], [s[:i]] and [s[i:j]] for indices that are not negative. *)
Definition from (i : Z) (s : pystr) : pystr := drop (Z.to_nat i) s.
Definition upto (i : Z) (s : pystr) : pystr := take (Z.to_nat i) s.
Definition slice (i j : Z) (s : pystr) : pystr := upto (j - i) (from i s).

(** [s.lstrip(chars)], [s.rstrip(chars)], [s.strip(chars)], the character
    set given as a predicate. *)
Fixpoint lstrip (P : N -> bool) (s : pystr) : pystr :=
  match s with
  | [] => []
  | x :: s' => if P x then lstrip P s' else s
  end.

Definition rstrip (P : N -> bool) (s : pystr) : pystr :=
  reverse (lstrip P (reverse s)).

Definition strip (P : N -> bool) (s : pystr) : pystr :=
  rstrip P (lstrip P s).

Definition one_of (chars : pystr) (c : N) : bool := existsb (N.eqb c) chars.

(** [c.isspace()]: the white space of [str.strip()] without argument. *)
Definition isspace (c : N) : bool :=
  ((9 <=? c) && (c <=? 13) || (28 <=? c) && (c <=? 32)
   || (c =? 133) || (c =? 160) || (c =? 5760)
   || (8192 <=? c) && (c <=? 8202)
   || (c =? 8232) || (c =? 8233) || (c =? 8239) || (c =? 8287)
   || (c =? 12288))%N.

(** [s.lower()], for the two tests the script makes on a lowered extension
    and for nothing else.  The ASCII letters are mapped as Python maps them.
    A code point outside ASCII is kept: Python consults the Unicode case
    table there, and the only two code points it lowers into ASCII (U+0130
    and U+212A) give an "i" and a "k", so a lowered extension is ".pt" or
    ".safetensors" for Python exactly when it is here.  The lowered text
    itself is not used: the lines printed do not carry it. *)
Definition lower_cp (c : N) : N :=
  if ((65 <=? c) && (c <=? 90))%N then (c + 32)%N else c.

Definition lower (s : pystr) : pystr := lower_cp <$> s.

End PyStr.

Import PyStr.

(** ** [os.path] (posixpath) *)

Module OsPath.

Definition sep : N := ch "/".
Definition extsep : N := ch ".".

(** [basename(p)]: [i = p.rfind('/') + 1; return p[i:]] *)
Definition basename (p : pystr) : pystr :=
  let i := rfind sep p + 1 in
  from i p.

(** [splitext(p)] (genericpath._splitext): the extension starts at the last
    dot of the last path segment, unless that segment has nothing but dots
    before it. *)
Definition splitext (p : pystr) : pystr * pystr :=
  let sepIndex := rfind sep p in
  let dotIndex := rfind extsep p in
  if sepIndex <? dotIndex then
    (* skip all leading dots *)
    if forallb (N.eqb extsep) (slice (sepIndex + 1) dotIndex p)
    then (p, [])
    else (upto dotIndex p, from dotIndex p)
  else (p, []).

End OsPath.

(** ** Module constants *)

Definition VALID_EXTENSIONS : list pystr := [py ".pt"; py ".safetensors"].

Definition MIN_CHECKPOINT_SIZE : Z := 2 * 1024 ^ 3.

(** ** [sanitize_filename] *)

Inductive ValueError :=
| PathTraversal (name : pystr)
| EmptyAfterSanitization.

Inductive result (A : Type) :=
| Ok (a : A)
| Raise (e : ValueError).
Arguments Ok {A} a.
Arguments Raise {A} e.

(** The character class of the substitution: the nine characters less-than,
    greater-than, colon, double quote, slash, backslash, bar, question mark
    and star, and the control ranges 0x00-0x1f and 0x7f-0x9f. *)
Definition dangerous (c : N) : bool :=
  one_of [ch "<"; ch ">"; ch ":"; 34%N; ch "/"; 92%N; ch "|"; ch "?"; ch "*"] c
  || (c <=? 31)%N
  || (127 <=? c)%N && (c <=? 159)%N.

(** [re.sub] of that class by an underscore *)
Definition re_sub_dangerous (name : pystr) : pystr :=
  (fun c => if dangerous c then ch "_" else c) <$> name.

Definition sanitize_filename (name : pystr) : result pystr :=
  (* Strip any directory traversal *)
  let name := OsPath.basename name in
  if contains (py "..") name then Raise (PathTraversal name)
  else
    (* Remove control characters and shell-dangerous chars *)
    let name := re_sub_dangerous name in
    let name := strip (one_of (py ". ")) name in
    match name with
    | [] => Raise EmptyAfterSanitization
    | _ => Ok name
    end.

(** ** [destination_folder] *)

Definition extension (filename : pystr) : pystr :=
  lower (OsPath.splitext filename).2.

Definition destination_folder (filename : pystr) (file_size : Z) : pystr :=
  let ext := extension filename in
  if decide (ext = py ".pt") then py "embeddings"
  else if MIN_CHECKPOINT_SIZE <=? file_size then py "models"
  else py "loras".

(** ** The world of one run

    A path is kept as its components below the working directory:
    [os.path.join(folder, filename)] is [[folder; filename]] and
    [os.path.join(os.getcwd(), filename + ".part")] is
    [[filename ++ py ".part"]]. *)

Definition path := list pystr.
Definition thread := nat.
Definition task : Type := pystr * pystr.

(** A [requests.Session]: its identity and its Authorization header. *)
Record Session := mkSession {
  sid : nat;
  authorization : option pystr
}.

Record World := mkWorld {
  files : gmap path Z;                          (* files and their sizes *)
  folders : gset pystr;                         (* folders made by makedirs *)
  thread_local : gmap thread Session;           (* _thread_local.session *)
  sessions_created : nat;                       (* calls of requests.Session() *)
  requests_sent : list (pystr * option pystr)   (* GETs: url, Authorization *)
}.

(** The exceptions the handlers of [download_one] name, by the handler that
    catches them. *)
Inductive exn :=
| HTTPError (status : option Z)
| Timeout
| RequestException
| OSError.

(** What the outside does during one call of [download_one].  Exceptions
    that no handler of the script catches are outside the model. *)
Record Env := mkEnv {
  get_raises : option exn;      (* session.get / raise_for_status raises *)
  open_raises : bool;           (* open(tmp_path, "wb") raises OSError *)
  chunks : list Z;              (* len(chunk) of the chunks written *)
  stream_raises : option exn;   (* iter_content or f.write raises after them *)
  makedirs_raises : bool;       (* os.makedirs raises OSError *)
  replace_raises : bool;        (* os.replace raises OSError *)
  remove_raises : bool          (* os.remove of the finally clause raises *)
}.

(** The lines the script prints on standard output, by their tag and the
    filename or the numbers they show; the text that follows (the lowered
    extension, the text of an exception) is left out. *)
Inductive msg :=
| MsgSkipError (e : ValueError)
| MsgSkipExtension (filename : pystr)
| MsgExists (filename : pystr)
| MsgOk (filename folder : pystr)
| MsgFailHTTP (filename : pystr) (status : option Z)
| MsgFailTimeout (filename : pystr)
| MsgFailRequest (filename : pystr)
| MsgFailFilesystem (filename : pystr)
| MsgWarnMalformed (lineno : Z)
| MsgNoValidEntries
| MsgFound (n : nat)
| MsgRetryAttempt (attempt retries : Z) (remaining : nat)
| MsgAllDownloaded
| MsgCouldNotDownload (n : nat) (retries : Z)
| MsgRemaining (filename : pystr)
| MsgNewline.

Definition set_files (f : gmap path Z -> gmap path Z) (w : World) : World :=
  mkWorld (f (files w)) (folders w) (thread_local w) (sessions_created w)
          (requests_sent w).

Definition add_folder (d : pystr) (w : World) : World :=
  mkWorld (files w) ({[d]} ∪ folders w) (thread_local w) (sessions_created w)
          (requests_sent w).

Definition log_request (url : pystr) (s : Session) (w : World) : World :=
  mkWorld (files w) (folders w) (thread_local w) (sessions_created w)
          (requests_sent w ++ [(url, authorization s)]).

(** ** [get_session] *)

Definition get_session (tid : thread) (token : pystr) (w : World)
  : Session * World :=
  match thread_local w !! tid with
  | Some s => (s, w)
  | None =>
      let s := mkSession (sessions_created w)
                 (match token with
                  | [] => None
                  | _ => Some (py "Bearer " ++ token)
                  end) in
      (s, mkWorld (files w) (folders w) (<[tid := s]> (thread_local w))
                  (S (sessions_created w)) (requests_sent w))
  end.

(** ** [file_already_exists] *)

Definition exists_at (w : World) (p : path) : bool :=
  bool_decide (is_Some (files w !! p)).

Definition file_already_exists (filename : pystr) (w : World) : bool :=
  existsb (fun folder => exists_at w [folder; filename])
          [py "embeddings"; py "loras"; py "models"].

(** ** [download_one]

    The body of the [try] runs in a monad of state, output and the
    exceptions of [exn]. *)

Definition M (A : Type) : Type := World -> (exn + A) * World * list msg.

#[global] Instance M_ret : MRet M := fun A a w => (inr a, w, []).

#[global] Instance M_bind : MBind M := fun A B k m w =>
  match m w with
  | (inl e, w1, out1) => (inl e, w1, out1)
  | (inr a, w1, out1) =>
      match k a w1 with
      | (r, w2, out2) => (r, w2, out1 ++ out2)
      end
  end.

Definition raise {A} (e : exn) : M A := fun w => (inl e, w, []).

Definition modify (f : World -> World) : M unit := fun w => (inr tt, f w, []).
Definition gets {A} (f : World -> A) : M A := fun w => (inr (f w), w, []).
Definition print (m : msg) : M unit := fun w => (inr tt, w, [m]).
Definition raise_if (e : option exn) : M unit :=
  match e with Some e => raise e | None => mret tt end.
Definition raise_when (b : bool) (e : exn) : M unit :=
  if b then raise e else mret tt.

Definition tmp_path_of (filename : pystr) : path := [filename ++ py ".part"].

(** [f.write(chunk)] for every chunk, the file growing by [len(chunk)] *)
Fixpoint write_chunks (p : path) (cs : list Z) : M unit :=
  match cs with
  | [] => mret tt
  | c :: cs' =>
      modify (set_files (fun fs => <[p := default 0 (fs !! p) + c]> fs)) ;;
      write_chunks p cs'
  end.

(** The [try] block, line by line; [filename] is the sanitized name. *)
Definition try_block (filename url : pystr) (session : Session) (env : Env)
  : M unit :=
  let tmp_path := tmp_path_of filename in
  modify (log_request url session) ;;
  raise_if (get_raises env) ;;
  raise_when (open_raises env) OSError ;;
  modify (set_files (fun fs => <[tmp_path := 0]> fs)) ;;
  write_chunks tmp_path (chunks env) ;;
  raise_if (stream_raises env) ;;
  size ← gets (fun w => files w !! tmp_path) ;
  match size with
  | None => raise OSError
  | Some file_size =>
      let folder := destination_folder filename file_size in
      raise_when (makedirs_raises env) OSError ;;
      modify (add_folder folder) ;;
      let dest := [folder; filename] in
      raise_when (replace_raises env) OSError ;;
      modify (set_files (fun fs => <[dest := file_size]> (delete tmp_path fs))) ;;
      print (MsgOk filename folder)
  end.

(** The line an [except] clause prints. *)
Definition fail_msg (filename : pystr) (e : exn) : msg :=
  match e with
  | HTTPError status => MsgFailHTTP filename status
  | Timeout => MsgFailTimeout filename
  | RequestException => MsgFailRequest filename
  | OSError => MsgFailFilesystem filename
  end.

(** The [finally] clause when [tmp_path] is still set. *)
Definition finally_remove (tmp_path : path) (env : Env) (w : World) : World :=
  if exists_at w tmp_path then
    if remove_raises env then w
    else set_files (delete tmp_path) w
  else w.

Definition download_one (tid : thread) (env : Env)
    (filename url token : pystr) (w : World) : bool * World * list msg :=
  match sanitize_filename filename with
  | Raise e => (false, w, [MsgSkipError e])
  | Ok filename =>
      let ext := extension filename in
      if negb (bool_decide (ext ∈ VALID_EXTENSIONS)) then
        (false, w, [MsgSkipExtension filename])
      else if file_already_exists filename w then
        (true, w, [MsgExists filename])
      else
        let '(session, w) := get_session tid token w in
        let tmp_path := tmp_path_of filename in
        match try_block filename url session env w with
        | (inr _, w, out) => (true, w, out)
        | (inl e, w, out) =>
            (false, finally_remove tmp_path env w,
             out ++ [fail_msg filename e])
        end
  end.

(** ** [read_url_file] *)

Definition separator : pystr := py " - ".

Inductive parsed :=
| Skipped
| Malformed
| Entry (filename url : pystr).

(** The body of the loop for one line. *)
Definition parse_line (raw : pystr) : parsed :=
  let line := strip isspace raw in
  match line with
  | [] => Skipped
  | _ =>
      if negb (contains separator line) then Skipped
      else
        let '(filename, _, url) := partition separator line in
        let filename := strip isspace filename in
        let url := strip isspace url in
        match filename, url with
        | _ :: _, _ :: _ => Entry filename url
        | _, _ => Malformed
        end
  end.

(** The loop over [enumerate(f, 1)], the file given by its lines. *)
Fixpoint read_lines (lineno : Z) (lines : list pystr) : list task * list msg :=
  match lines with
  | [] => ([], [])
  | raw :: rest =>
      let '(pairs, out) := read_lines (lineno + 1) rest in
      match parse_line raw with
      | Skipped => (pairs, out)
      | Malformed => (pairs, MsgWarnMalformed lineno :: out)
      | Entry filename url => ((filename, url) :: pairs, out)
      end
  end.

Definition read_url_file (lines : list pystr) : list task * list msg :=
  read_lines 1 lines.

(** ** [get_token]: [None] is [sys.exit(1)] *)

Definition get_token (environ_token : pystr) (typed : option pystr)
  : option pystr :=
  match environ_token with
  | _ :: _ => Some environ_token
  | [] =>
      match typed with
      | Some s => Some (strip isspace s)
      | None => None
      end
  end.

(** ** [main] *)

Record Args := mkArgs {
  url_file : list pystr;   (* the lines of the file at args.url_file *)
  max_threads : Z;
  retries : Z
}.

(** The thread that runs a task and what the outside does to it, for every
    attempt and every position of the pending list. *)
Definition Schedule := Z -> nat -> thread * Env.

(** [list(executor.map(lambda p: (p, download_one(p[0], p[1], token)),
    pending))]: the results come in the order of [pending].  The workers of
    one attempt are run one after the other, in the order of the list: one
    of the schedules of the pool (see the conventions at the head of the
    file). *)
Fixpoint executor_map (sched : nat -> thread * Env) (token : pystr)
    (i : nat) (pending : list task) (w : World)
  : list (task * bool) * World * list msg :=
  match pending with
  | [] => ([], w, [])
  | p :: rest =>
      let '(ok, w1, out1) :=
        download_one (sched i).1 (sched i).2 p.1 p.2 token w in
      let '(results, w2, out2) := executor_map sched token (S i) rest w1 in
      ((p, ok) :: results, w2, out1 ++ out2)
  end.

(** [[pair for pair, ok in results if not ok]] *)
Definition failed (results : list (task * bool)) : list task :=
  fst <$> List.filter (fun r => negb r.2) results.


(** How the [for] statement ends: by [break], through its [else], or by the
    [ValueError] that [ThreadPoolExecutor(max_workers=...)] raises when the
    number of workers is not positive, which nothing catches. *)
Inductive Final :=
| AllSucceeded
| ExhaustedRetries (pending : list task)
| PoolValueError.

(** The [for attempt in range(1, args.retries + 1)] loop with [n] attempts
    left, the next of them numbered [attempt]. *)
Fixpoint for_attempts (sched : Schedule) (token : pystr)
    (max_threads retries : Z)
    (n : nat) (attempt : Z) (pending : list task) (w : World)
  : Final * World * list msg :=
  match n with
  | O => (ExhaustedRetries pending, w, [])
  | S n' =>
      let banner :=
        if 1 <? attempt
        then [MsgRetryAttempt attempt retries (length pending)] else [] in
      (* with ThreadPoolExecutor(max_workers=args.max_threads) as executor *)
      if max_threads <=? 0 then (PoolValueError, w, banner)
      else
        let '(results, w1, out1) :=
          executor_map (sched attempt) token 0 pending w in
        match failed results with
        | [] => (AllSucceeded, w1, banner ++ out1 ++ [MsgAllDownloaded])
        | pending' =>
            let '(final, w2, out2) :=
              for_attempts sched token max_threads retries n' (attempt + 1)
                pending' w1 in
            (final, w2, banner ++ out1 ++ out2)
        end
  end.

Definition retry_loop (sched : Schedule) (token : pystr)
    (max_threads retries : Z) (pairs : list task) (w : World)
  : Final * World * list msg :=
  for_attempts sched token max_threads retries (Z.to_nat retries) 1 pairs w.

(** [main], from [get_token()] on: the exit code, the world and the output. *)
Definition main (args : Args) (environ_token : pystr) (typed : option pystr)
    (sched : Schedule) (w : World) : Z * World * list msg :=
  match get_token environ_token typed with
  | None => (1, w, [MsgNewline])
  | Some token =>
      let '(pairs, out0) := read_url_file (url_file args) in
      match pairs with
      | [] => (1, w, out0 ++ [MsgNoValidEntries])
      | _ =>
          match retry_loop sched token (max_threads args) (retries args)
                  pairs w with
          | (AllSucceeded, w1, out1) =>
              (0, w1, out0 ++ [MsgFound (length pairs)] ++ out1)
          | (ExhaustedRetries pending, w1, out1) =>
              (1, w1,
               out0 ++ [MsgFound (length pairs)] ++ out1
               ++ [MsgCouldNotDownload (length pending) (retries args)]
               ++ (MsgRemaining <$> (fst <$> pending)))
          | (PoolValueError, w1, out1) =>
              (* the traceback goes to standard error; the status is 1 *)
              (1, w1, out0 ++ [MsgFound (length pairs)] ++ out1)
          end
      end
  end.

(** The filenames of the final failure summary. *)
Definition failure_summary (out : list msg) : list pystr :=
  omap (fun m => match m with MsgRemaining f => Some f | _ => None end) out.

(** ** Auxiliary notions of the statements *)

(** A name without any character of the substituted class. *)
Definition clean (s : pystr) : Prop := Forall (fun c => dangerous c = false) s.

(** The entry a parsed line contributes to the list, if any. *)
Definition entry_of (r : parsed) : option task :=
  match r with
  | Entry filename url => Some (filename, url)
  | _ => None
  end.

(** The file map after the chunks [cs] have been written to [p]. *)
Definition grow (p : path) (cs : list Z) (fs : gmap path Z) : gmap path Z :=
  foldl (fun fs c => <[p := default 0 (fs !! p) + c]> fs) fs cs.

(** A sequence of worker calls, on any threads and with any tokens. *)
Record Call := mkCall {
  call_thread : thread;
  call_env : Env;
  call_task : task;
  call_token : pystr
}.

Definition run_calls (calls : list Call) (w : World) : World :=
  foldl (fun w c =>
           (download_one (call_thread c) (call_env c) (call_task c).1
              (call_task c).2 (call_token c) w).1.2)
        w calls.

(** The header [get_session] sets for a token. *)
Definition bearer (token : pystr) : option pystr :=
  match token with
  | [] => None
  | _ => Some (py "Bearer " ++ token)
  end.



Definition exit_code_of (f : Final) : Z :=
  match f with AllSucceeded => 0 | _ => 1 end.

Definition summary_of (f : Final) : list pystr :=
  match f with ExhaustedRetries pending => pending.*1 | _ => [] end.




(** ** The state machine of section 4.5 of the specification

    Written from the words of the specification, to be compared with
    [for_attempts].  A worker ends in one of the three results of section 3;
    section 4.4 gives [Skipped] to a name that sanitizes with an extension
    that is not accepted, [Failed] to every other task that is not done, and
    only the [Failed] tasks are pending again.  The transitions are written
    once, for any reading [counts] of the results that are [Failed]: the
    machine of the specification is the one of [is_failed]. *)

Module Spec45.

Inductive AttemptResult :=
| Success
| Skipped
| Failed.

(** The result of section 4.4 for a task whose worker returned [ok]. *)
Definition attempt_result (t : task) (ok : bool) : AttemptResult :=
  if ok then Success
  else
    match sanitize_filename t.1 with
    | Raise _ => Failed
    | Ok name =>
        if bool_decide (extension name ∈ VALID_EXTENSIONS) then Failed
        else Skipped
    end.

Definition is_failed (r : task * bool) : bool :=
  match attempt_result r.1 r.2 with Failed => true | _ => false end.

Inductive state :=
| Running (pendingSet : list task) (attempt : Z)
| AllSucceeded
| ExhaustedRetries (remainingFailures : list task).


(** [{ task : Failed }] *)
Definition failures_by (counts : task * bool -> bool)
    (results : list (task * bool)) : list task :=
  fst <$> List.filter counts results.

(** One transition: dispatch every task of the pending set, wait for all of
    them, then move on. *)
Definition step_by (counts : task * bool -> bool)
    (sched : Schedule) (token : pystr) (maxRetries : Z)
    (st : state) (w : World) : state * World :=
  match st with
  | Running pendingSet attempt =>
      let '(results, w', _) :=
        executor_map (sched attempt) token 0 pendingSet w in
      if negb (existsb counts results) then (AllSucceeded, w')
      else if attempt =? maxRetries
           then (ExhaustedRetries (failures_by counts results), w')
           else (Running (failures_by counts results) (attempt + 1), w')
  | _ => (st, w)
  end.


Definition failures := failures_by is_failed.
Definition step := step_by is_failed.

End Spec45.


(** ** Notions of the further properties *)

(** The file of a task is in one of the destination folders. *)
Definition present (t : task) (w : World) : Prop :=
  exists name,
    sanitize_filename t.1 = Ok name /\ file_already_exists name w = true.

(** Every session of the thread-local store carries the header of [token]. *)
Definition sessions_carry (token : pystr) (w : World) : Prop :=
  forall tid s, thread_local w !! tid = Some s -> authorization s = bearer token.

(** The sessions are numbered below the count of sessions made, and no two
    threads hold the same session. *)
Definition sessions_distinct (w : World) : Prop :=
  (forall tid s, thread_local w !! tid = Some s ->
                 (sid s < sessions_created w)%nat)
  /\ (forall t1 t2 s1 s2,
        thread_local w !! t1 = Some s1 -> thread_local w !! t2 = Some s2 ->
        sid s1 = sid s2 -> t1 = t2).

(** The sanitized names of the tasks whose filename sanitizes. *)
Definition sanitized_names (pairs : list task) : list pystr :=
  omap (fun t : task =>
          match sanitize_filename t.1 with
          | Ok name => Some name
          | Raise _ => None
          end) pairs.

(** A field of an entry: not empty, no white space at either end. *)
Definition trimmed_field (s : pystr) : Prop :=
  s <> [] /\ strip isspace s = s.

(** ** A run of three tasks

    Task A is downloaded at the first attempt; task B gets a 503 at the
    first, loses its stream at the second and is downloaded at the third;
    task C gets a 404 each time. *)

Module Scenario.

Definition A : task := (py "a.pt", py "https://h/a").
Definition B : task := (py "b.safetensors", py "https://h/b").

Definition served : Env :=
  mkEnv None false [65536; 1200] None false false false.
Definition refused (status : Z) : Env :=
  mkEnv (Some (HTTPError (Some status))) false [] None false false false.
Definition cut : Env :=
  mkEnv None false [65536] (Some RequestException) false false false.

Definition sched : Schedule := fun attempt i =>
  (i, match attempt, i with
      | 1, 0%nat => served
      | 1, 1%nat => refused 503
      | 2, 0%nat => cut
      | 3, 0%nat => served
      | _, _ => refused 404
      end).

Definition args : Args :=
  mkArgs [py "a.pt - https://h/a"; [];
          py "b.safetensors - https://h/b";
          py "c.safetensors - https://h/c"] 5 3.

Definition w0 : World := mkWorld ∅ ∅ ∅ 0 [].

End Scenario.

(** * Properties *)

(** ** The functions on some inputs *)

Example sanitize_plain :
  sanitize_filename (py "dir/sub/My Model?.safetensors")
  = Ok (py "My Model_.safetensors").
Proof. vm_compute. reflexivity. Qed.

Example sanitize_dots : sanitize_filename (py " .hidden. ") = Ok (py "hidden").
Proof. vm_compute. reflexivity. Qed.

Example sanitize_only_dot : sanitize_filename (py "a/.") = Raise EmptyAfterSanitization.
Proof. vm_compute. reflexivity. Qed.

Example splitext_leading_dot : OsPath.splitext (py ".pt") = (py ".pt", []).
Proof. vm_compute. reflexivity. Qed.

Example splitext_two_dots :
  OsPath.splitext (py "a.b/c.tar.PT") = (py "a.b/c.tar", py ".PT").
Proof. vm_compute. reflexivity. Qed.

Example destination_pt : destination_folder (py "x.PT") (2 ^ 40) = py "embeddings".
Proof. vm_compute. reflexivity. Qed.

Example destination_big :
  destination_folder (py "x.safetensors") 2147483648 = py "models".
Proof. vm_compute. reflexivity. Qed.

Example destination_small :
  destination_folder (py "x.safetensors") 2147483647 = py "loras".
Proof. vm_compute. reflexivity. Qed.

Example parse_entry :
  parse_line (py "a.pt  -  https://h/a - b") = Entry (py "a.pt") (py "https://h/a - b").
Proof. vm_compute. reflexivity. Qed.

Example scenario_files :
  let w := (main Scenario.args (py "tok") None Scenario.sched Scenario.w0).1.2 in
  map_to_list (files w)
  = [([py "loras"; py "b.safetensors"], 66736);
     ([py "embeddings"; py "a.pt"], 66736)]
  /\ length (requests_sent w) = 7%nat.
Proof. vm_compute. split; reflexivity. Qed.

(** ** Strings *)

Section StringFacts.

Implicit Types (s sub l r : pystr) (P : N -> bool) (c : N).

Lemma startswith_spec sub s :
  startswith sub s = true <-> exists r, s = sub ++ r.
Proof.
  revert s. induction sub as [|a sub IH]; intros s; simpl.
  - split; [intros _; by exists s | done].
  - destruct s as [|b s].
    + split; [done | intros [r Hr]; discriminate].
    + rewrite andb_true_iff, N.eqb_eq, IH. split.
      * intros [-> [r ->]]. by exists r.
      * intros [r Hr]. injection Hr as -> ->. eauto.
Qed.

Lemma find_unfold sub s :
  find sub s =
  if startswith sub s then Some 0%nat
  else match s with [] => None | _ :: s' => S <$> find sub s' end.
Proof. by destruct s. Qed.

Lemma find_Some sub s i :
  find sub s = Some i ->
  s = take i s ++ sub ++ drop (i + length sub) s /\ (i <= length s)%nat.
Proof.
  revert i. induction s as [|b s IH]; intros i; rewrite find_unfold.
  - destruct (startswith sub []) eqn:E; [|done].
    intros [= <-]. apply startswith_spec in E as [r Hr].
    symmetry in Hr. apply app_eq_nil in Hr as [-> ->]. done.
  - destruct (startswith sub (b :: s)) eqn:E.
    + intros [= <-]. apply startswith_spec in E as [r Hr].
      split; [|simpl; lia]. simpl take. rewrite Hr at 2.
      rewrite Nat.add_0_l, drop_app_length. by rewrite Hr.
    + destruct (find sub s) as [j|] eqn:Ej; [|done].
      intros [= <-]. destruct (IH j eq_refl) as [Hs Hj].
      split; [|simpl; lia]. simpl. by rewrite <- Hs.
Qed.

Lemma find_first sub s i l r :
  find sub s = Some i -> s = l ++ sub ++ r -> (i <= length l)%nat.
Proof.
  revert i l. induction s as [|b s IH]; intros i l; rewrite find_unfold.
  - destruct (startswith sub []); [intros [= <-]; lia | done].
  - destruct (startswith sub (b :: s)) eqn:E; [intros [= <-]; lia|].
    destruct (find sub s) as [j|] eqn:Ej; [|done].
    intros [= <-] Hs. destruct l as [|a l].
    + exfalso. assert (startswith sub (b :: s) = true) as E'
        by (apply startswith_spec; eauto).
      congruence.
    + injection Hs as _ Hs. simpl. specialize (IH j l eq_refl Hs). lia.
Qed.

Lemma find_None sub s l r : find sub s = None -> s <> l ++ sub ++ r.
Proof.
  revert l. induction s as [|b s IH]; intros l; rewrite find_unfold.
  - destruct (startswith sub []) eqn:E; [done|]. intros _ Hs.
    assert (startswith sub [] = true) as E'; [|congruence].
    apply startswith_spec. symmetry in Hs.
    apply app_eq_nil in Hs as [_ Hs]. apply app_eq_nil in Hs as [-> ->].
    by exists [].
  - destruct (startswith sub (b :: s)) eqn:E; [done|].
    destruct (find sub s) as [j|] eqn:Ej; [done|]. intros _ Hs.
    destruct l as [|a l].
    + assert (startswith sub (b :: s) = true) as E'; [|congruence].
      apply startswith_spec; eauto.
    + injection Hs as _ Hs. by apply (IH l).
Qed.

Lemma contains_spec sub s :
  contains sub s = true <-> exists l r, s = l ++ sub ++ r.
Proof.
  unfold contains. destruct (find sub s) as [i|] eqn:E; split; try done.
  - intros _. apply find_Some in E as [E _]. eauto.
  - intros (l & r & Hs). by apply find_None with (l := l) (r := r) in E.
Qed.

Lemma contains_false sub s l r :
  contains sub s = false -> s <> l ++ sub ++ r.
Proof.
  intros E Hs. assert (contains sub s = true); [|congruence].
  apply contains_spec; eauto.
Qed.

(** Stripping. *)

Lemma lstrip_suffix P s : exists l, s = l ++ lstrip P s /\ forallb P l = true.
Proof.
  induction s as [|x s (l & Hl & HP)]; simpl.
  - by exists [].
  - destruct (P x) eqn:E.
    + exists (x :: l). simpl. rewrite E, HP. by rewrite <- Hl.
    + by exists [].
Qed.

Lemma lstrip_head P s c r : lstrip P s = c :: r -> P c = false.
Proof.
  induction s as [|x s IH]; simpl; [done|].
  destruct (P x) eqn:E; [done|]. by intros [= <- _].
Qed.

Lemma lstrip_fixed P s : head (P <$> s) <> Some true -> lstrip P s = s.
Proof. destruct s as [|x s]; simpl; [done|]. by destruct (P x). Qed.

Lemma lstrip_idemp P s : lstrip P (lstrip P s) = lstrip P s.
Proof.
  apply lstrip_fixed. destruct (lstrip P s) as [|c r] eqn:E; [done|].
  simpl. apply lstrip_head in E. rewrite E. done.
Qed.

Lemma lstrip_keeps P s c :
  c ∈ s -> P c = false -> c ∈ lstrip P s.
Proof.
  induction s as [|x s IH]; simpl; [done|]. intros Hin Hc.
  destruct (P x) eqn:E; [|done].
  apply elem_of_cons in Hin as [->|Hin]; [congruence | by apply IH].
Qed.

Lemma rstrip_prefix P s : exists r, s = rstrip P s ++ r /\ forallb P r = true.
Proof.
  unfold rstrip. destruct (lstrip_suffix P (reverse s)) as (l & Hl & HP).
  exists (reverse l). split.
  - rewrite <- reverse_app, <- Hl. by rewrite reverse_involutive.
  - apply forallb_forall. intros x Hx. rewrite forallb_forall in HP.
    apply HP, list_elem_of_In, elem_of_reverse. by apply list_elem_of_In.
Qed.

Lemma rstrip_idemp P s : rstrip P (rstrip P s) = rstrip P s.
Proof. unfold rstrip. by rewrite reverse_involutive, lstrip_idemp. Qed.

Lemma rstrip_last P s c : last (rstrip P s) = Some c -> P c = false.
Proof.
  unfold rstrip. rewrite last_reverse.
  destruct (lstrip P (reverse s)) as [|x r] eqn:E; [done|].
  intros [= <-]. by apply lstrip_head in E.
Qed.

Lemma rstrip_keeps P s c : c ∈ s -> P c = false -> c ∈ rstrip P s.
Proof.
  intros Hin Hc. unfold rstrip. apply elem_of_reverse.
  apply lstrip_keeps; [by apply elem_of_reverse | done].
Qed.

Lemma rstrip_head P s c r :
  rstrip P s = c :: r -> head s = Some c.
Proof.
  intros E. destruct (rstrip_prefix P s) as (t & Hs & _).
  rewrite E in Hs. by rewrite Hs.
Qed.

Lemma strip_head P s c r : strip P s = c :: r -> P c = false.
Proof.
  unfold strip. intros E%rstrip_head.
  destruct (lstrip P s) as [|x t] eqn:El; [done|].
  injection E as ->. by apply lstrip_head in El.
Qed.

Lemma strip_last P s c : last (strip P s) = Some c -> P c = false.
Proof. apply rstrip_last. Qed.

Lemma strip_idemp P s : strip P (strip P s) = strip P s.
Proof.
  unfold strip at 1. rewrite lstrip_fixed.
  - unfold strip. apply rstrip_idemp.
  - destruct (strip P s) as [|c r] eqn:E; [done|].
    simpl. apply strip_head in E. by rewrite E.
Qed.

Lemma strip_infix P s : exists l r, s = l ++ strip P s ++ r.
Proof.
  destruct (lstrip_suffix P s) as (l & Hl & _).
  destruct (rstrip_prefix P (lstrip P s)) as (r & Hr & _).
  exists l, r. unfold strip. by rewrite <- Hr.
Qed.

Lemma strip_keeps P s c : c ∈ s -> P c = false -> c ∈ strip P s.
Proof.
  intros Hin Hc. unfold strip. apply rstrip_keeps; [|done].
  by apply lstrip_keeps.
Qed.

End StringFacts.

(** ** Paths *)

Section PathFacts.

Implicit Types (p s l t : pystr) (c : N).

Lemma rfind_from_spec c s i last :
  ((c ∉ s) /\ rfind_from c s i last = last)
  \/ (exists l t, s = l ++ c :: t /\ (c ∉ t)
                  /\ rfind_from c s i last = i + Z.of_nat (length l)).
Proof.
  revert i last. induction s as [|x s IH]; intros i last; simpl.
  - left. split; [apply not_elem_of_nil | done].
  - destruct (IH (i + 1) (if N.eqb x c then i else last))
      as [[Hnot Hr] | (l & t & Hs & Ht & Hr)].
    + destruct (N.eqb_spec x c) as [->|Hne].
      * right. exists [], s. simpl. split_and!; [done | done | lia].
      * left. split; [|done]. rewrite not_elem_of_cons. split; [congruence | done].
    + right. exists (x :: l), t. split_and!; [by rewrite Hs | done |].
      rewrite Hr. simpl length. lia.
Qed.

Lemma basename_spec p :
  ((OsPath.sep ∉ p) /\ OsPath.basename p = p)
  \/ (exists l t, p = l ++ OsPath.sep :: t /\ (OsPath.sep ∉ t)
                  /\ OsPath.basename p = t).
Proof.
  unfold OsPath.basename, rfind, from.
  destruct (rfind_from_spec OsPath.sep p 0 (-1))
    as [[Hnot ->] | (l & t & Hp & Ht & ->)].
  - left. done.
  - right. exists l, t. split_and!; [done | done |].
    replace (Z.to_nat (0 + Z.of_nat (length l) + 1)) with (length l + 1)%nat by lia.
    rewrite Hp. rewrite <- drop_drop, drop_app_length. done.
Qed.

Lemma basename_no_sep p : OsPath.sep ∉ OsPath.basename p.
Proof.
  destruct (basename_spec p) as [[H ->] | (l & t & _ & H & ->)]; done.
Qed.

Lemma basename_fixed p : OsPath.sep ∉ p -> OsPath.basename p = p.
Proof.
  intros Hnot. destruct (basename_spec p) as [[_ H] | (l & t & Hp & _ & _)]; [done|].
  exfalso. apply Hnot. rewrite Hp. set_solver.
Qed.

Lemma basename_app l t :
  OsPath.sep ∉ t -> OsPath.basename (l ++ OsPath.sep :: t) = t.
Proof.
  intros Ht. destruct (basename_spec (l ++ OsPath.sep :: t))
    as [[H _] | (l' & t' & Hp & Ht' & ->)].
  - exfalso. apply H. set_solver.
  - (* both decompositions split at the last separator *)
    revert l' Hp. induction l as [|x l IH]; intros l' Hp.
    + destruct l' as [|y l']; simpl in Hp.
      * by injection Hp.
      * injection Hp as _ Hp. exfalso. apply Ht. rewrite Hp. set_solver.
    + destruct l' as [|y l']; simpl in Hp.
      * injection Hp as _ Hp. exfalso. apply Ht'. rewrite <- Hp. set_solver.
      * injection Hp as _ Hp. by apply (IH l').
Qed.

(** A directory in front of a path does not change its last segment. *)
Lemma basename_prefix l p :
  OsPath.basename (l ++ OsPath.sep :: p) = OsPath.basename p.
Proof.
  destruct (basename_spec p) as [[Hnot ->] | (l' & t & -> & Ht & ->)].
  - by apply basename_app.
  - replace (l ++ OsPath.sep :: l' ++ OsPath.sep :: t)
      with ((l ++ OsPath.sep :: l') ++ OsPath.sep :: t)
      by (by rewrite <- app_assoc).
    by rewrite !basename_app.
Qed.

End PathFacts.

(** ** The sanitizer *)

Section SanitizerFacts.

Implicit Types (name raw s : pystr) (c : N).

Lemma re_sub_clean s : clean (re_sub_dangerous s).
Proof.
  unfold clean, re_sub_dangerous. apply Forall_fmap, Forall_forall.
  intros c _. simpl. destruct (dangerous c) eqn:E; [reflexivity | done].
Qed.

Lemma re_sub_fixed s : clean s -> re_sub_dangerous s = s.
Proof.
  unfold clean, re_sub_dangerous. induction 1 as [|c s Hc _ IH]; [done|].
  rewrite fmap_cons, IH. by rewrite Hc.
Qed.

Lemma re_sub_dot c : (if dangerous c then ch "_" else c) = ch "." -> c = ch ".".
Proof. destruct (dangerous c); [discriminate | done]. Qed.

Lemma re_sub_no_dotdot s :
  contains (py "..") s = false -> contains (py "..") (re_sub_dangerous s) = false.
Proof.
  intros Hs. apply not_true_is_false. intros (l & r & H)%contains_spec.
  unfold re_sub_dangerous in H.
  apply fmap_app_inv in H as (l' & r' & _ & Hr & ->).
  symmetry in Hr. change (py ".." ++ r) with (ch "." :: ch "." :: r) in Hr.
  apply fmap_cons_inv in Hr as (a & r1 & Ha & Hr & ->).
  symmetry in Hr. apply fmap_cons_inv in Hr as (b & r2 & Hb & _ & ->).
  symmetry in Ha, Hb. apply re_sub_dot in Ha as ->. apply re_sub_dot in Hb as ->.
  by apply (contains_false _ _ l' r2) in Hs.
Qed.

Lemma strip_no_dotdot P s :
  contains (py "..") s = false -> contains (py "..") (strip P s) = false.
Proof.
  intros Hs. apply not_true_is_false. intros (l & r & H)%contains_spec.
  destruct (strip_infix P s) as (l0 & r0 & Hs0). rewrite H in Hs0.
  apply (contains_false _ _ (l0 ++ l) (r ++ r0)) in Hs. apply Hs.
  rewrite Hs0. by rewrite <- !app_assoc.
Qed.

Lemma strip_clean P s : clean s -> clean (strip P s).
Proof.
  unfold clean. intros Hs. destruct (strip_infix P s) as (l0 & r0 & Hs0).
  rewrite Hs0 in Hs. apply Forall_app in Hs as [_ Hs].
  by apply Forall_app in Hs as [Hs _].
Qed.

Lemma clean_no_sep s : clean s -> OsPath.sep ∉ s.
Proof.
  unfold clean. rewrite Forall_forall. intros Hs Hin.
  specialize (Hs _ Hin). vm_compute in Hs. discriminate.
Qed.

(** What a successful call returns. *)
Lemma sanitize_Ok raw name :
  sanitize_filename raw = Ok name ->
  contains (py "..") (OsPath.basename raw) = false
  /\ name = strip (one_of (py ". ")) (re_sub_dangerous (OsPath.basename raw))
  /\ name <> [].
Proof.
  unfold sanitize_filename.
  destruct (contains (py "..") (OsPath.basename raw)); [done|].
  destruct (strip _ _) as [|c r] eqn:E; [done|].
  intros [= <-]. done.
Qed.

Lemma sanitize_Ok_clean raw name :
  sanitize_filename raw = Ok name -> clean name /\ (OsPath.sep ∉ name).
Proof.
  intros (_ & -> & _)%sanitize_Ok.
  assert (clean (strip (one_of (py ". ")) (re_sub_dangerous (OsPath.basename raw))))
    by apply strip_clean, re_sub_clean.
  split; [done | by apply clean_no_sep].
Qed.

End SanitizerFacts.

(** C4. [sanitize_filename] is idempotent: when it returns a name for [x],
    it returns that same name when it is given that name. *)
Theorem sanitize_idempotent (x y : pystr) :
  sanitize_filename x = Ok y -> sanitize_filename y = Ok y.
Proof.
  intros Hx. destruct (sanitize_Ok_clean _ _ Hx) as [Hclean Hsep].
  apply sanitize_Ok in Hx as (Hdd & Hy & Hne).
  unfold sanitize_filename. rewrite (basename_fixed y Hsep).
  assert (contains (py "..") y = false) as ->.
  { rewrite Hy. by apply strip_no_dotdot, re_sub_no_dotdot. }
  rewrite (re_sub_fixed y Hclean).
  assert (strip (one_of (py ". ")) y = y) as ->.
  { rewrite Hy. apply strip_idemp. }
  destruct y; done.
Qed.

Lemma sanitize_idempotent_witness :
  sanitize_filename (py "../a b/ .My:Model?.PT. ") = Ok (py "My_Model_.PT")
  /\ sanitize_filename (py "My_Model_.PT") = Ok (py "My_Model_.PT").
Proof.
  split; [vm_compute; reflexivity|].
  apply (sanitize_idempotent (py "../a b/ .My:Model?.PT. ")).
  vm_compute; reflexivity.
Defined.

(** C2 (as the claim states it, refuted).  A raw name with [..] in a
    directory component only is accepted: the directory is stripped first. *)
Lemma sanitize_accepts_dotdot_in_directory :
  contains (py "..") (py "../model.pt") = true
  /\ sanitize_filename (py "../model.pt") = Ok (py "model.pt").
Proof. split; vm_compute; reflexivity. Qed.

(** C2 (amended).  For every raw filename whose final path segment (the text
    after the last slash) contains [..], [sanitize_filename] raises the
    path-traversal error and returns no name; and only for these: a directory
    part in front of the final segment, whatever it contains, is dropped
    before the test, so that the whole name gets the result of its final
    segment alone and a [..] that occurs only in the directory part is not
    rejected. *)
Theorem sanitize_rejects_dotdot_in_last_segment (raw : pystr) :
  (contains (py "..") (OsPath.basename raw) = true ->
   sanitize_filename raw = Raise (PathTraversal (OsPath.basename raw))
   /\ forall name, sanitize_filename raw <> Ok name)
  /\ (contains (py "..") (OsPath.basename raw) = false ->
      forall rejected, sanitize_filename raw <> Raise (PathTraversal rejected))
  /\ sanitize_filename (OsPath.basename raw) = sanitize_filename raw
  /\ (forall dir,
        sanitize_filename (dir ++ OsPath.sep :: raw) = sanitize_filename raw).
Proof.
  split_and!.
  - intros H.
    assert (sanitize_filename raw = Raise (PathTraversal (OsPath.basename raw)))
      as E by (unfold sanitize_filename; by rewrite H).
    split; [done | intros name; by rewrite E].
  - intros H rejected. unfold sanitize_filename. rewrite H.
    by destruct (strip _ _).
  - unfold sanitize_filename.
    by rewrite (basename_fixed _ (basename_no_sep raw)).
  - intros dir. unfold sanitize_filename. by rewrite basename_prefix.
Qed.

Lemma sanitize_rejects_dotdot_in_last_segment_witness :
  sanitize_filename (py "models/a..b.pt") = Raise (PathTraversal (py "a..b.pt"))
  /\ sanitize_filename (py "../../models/a..b.pt")
     = sanitize_filename (py "models/a..b.pt").
Proof.
  destruct (sanitize_rejects_dotdot_in_last_segment (py "models/a..b.pt"))
    as (H & _ & _ & Hdir).
  split.
  - apply H. vm_compute; reflexivity.
  - apply (Hdir (py "../..")).
Defined.

(** ** The classifier *)

Lemma lower_cp_inv (c d : N) :
  lower_cp c = d ->
  (c = d /\ ~ (65 <= c <= 90)%N) \/ ((c + 32)%N = d /\ (65 <= c <= 90)%N).
Proof.
  unfold lower_cp. destruct (N.leb_spec 65 c), (N.leb_spec c 90); simpl; lia.
Qed.

Lemma lower_is_pt (ext : pystr) :
  lower ext = py ".pt" <-> ext ∈ [py ".pt"; py ".pT"; py ".Pt"; py ".PT"].
Proof.
  split.
  - destruct ext as [|a [|b [|c [|d ext]]]]; try discriminate.
    change (py ".pt") with [46%N; 112%N; 116%N]. unfold lower.
    rewrite !fmap_cons. intros [= Ha Hb Hc].
    apply lower_cp_inv in Ha, Hb, Hc.
    assert (a = 46%N) as -> by lia.
    assert (b = 112%N \/ b = 80%N) as Hb' by lia.
    assert (c = 116%N \/ c = 84%N) as Hc' by lia.
    rewrite !elem_of_cons.
    destruct Hb' as [-> | ->], Hc' as [-> | ->]; auto.
  - rewrite !elem_of_cons, elem_of_nil.
    intros [-> | [-> | [-> | [-> | []]]]]; vm_compute; reflexivity.
Qed.

(** C3.  [destination_folder] depends on the extension and the size only:
    an extension that is [.pt] in any letter case gives [embeddings] at every
    size; any other extension gives [models] from [2 * 1024^3] bytes on and
    [loras] below. *)
Theorem destination_folder_spec (filename : pystr) (file_size : Z) :
  let ext := (OsPath.splitext filename).2 in
  (ext ∈ [py ".pt"; py ".pT"; py ".Pt"; py ".PT"] ->
     destination_folder filename file_size = py "embeddings")
  /\ (ext ∉ [py ".pt"; py ".pT"; py ".Pt"; py ".PT"] ->
      2 * 1024 ^ 3 <= file_size ->
      destination_folder filename file_size = py "models")
  /\ (ext ∉ [py ".pt"; py ".pT"; py ".Pt"; py ".PT"] ->
      file_size < 2 * 1024 ^ 3 ->
      destination_folder filename file_size = py "loras")
  /\ (forall other, (OsPath.splitext other).2 = ext ->
      destination_folder other file_size = destination_folder filename file_size).
Proof.
  intros ext. unfold destination_folder, extension. fold ext.
  split_and!.
  - intros H%lower_is_pt. by rewrite decide_True.
  - intros H Hsize. rewrite decide_False by (by rewrite lower_is_pt).
    unfold MIN_CHECKPOINT_SIZE. destruct (Z.leb_spec (2 * 1024 ^ 3) file_size); [done | lia].
  - intros H Hsize. rewrite decide_False by (by rewrite lower_is_pt).
    unfold MIN_CHECKPOINT_SIZE. destruct (Z.leb_spec (2 * 1024 ^ 3) file_size); [lia | done].
  - intros other ->. done.
Qed.

Lemma destination_folder_spec_witness :
  destination_folder (py "style.Pt") (2 ^ 40) = py "embeddings"
  /\ destination_folder (py "big.safetensors") (2 * 1024 ^ 3) = py "models"
  /\ destination_folder (py "small.safetensors") (2 * 1024 ^ 3 - 1) = py "loras".
Proof.
  split_and!.
  - apply (proj1 (destination_folder_spec (py "style.Pt") (2 ^ 40))).
    apply (bool_decide_unpack _). vm_compute. exact I.
  - apply (proj1 (proj2 (destination_folder_spec (py "big.safetensors") (2 * 1024 ^ 3)))).
    + apply (bool_decide_unpack _). vm_compute. exact I.
    + lia.
  - apply (proj1 (proj2 (proj2
      (destination_folder_spec (py "small.safetensors") (2 * 1024 ^ 3 - 1))))).
    + apply (bool_decide_unpack _). vm_compute. exact I.
    + lia.
Defined.

(** ** The input list *)

Section ParserFacts.

Implicit Types (raw line before after : pystr).

Lemma rstrip_fixed (P : N -> bool) (s : pystr) (c : N) :
  last s = Some c -> P c = false -> rstrip P s = s.
Proof.
  intros Hlast Hc. unfold rstrip. rewrite lstrip_fixed.
  - apply reverse_involutive.
  - rewrite <- (reverse_involutive s), last_reverse in Hlast.
    destruct (reverse s) as [|x t]; [done|]. simpl in *.
    injection Hlast as ->. by rewrite Hc.
Qed.

Lemma strip_fixed (P : N -> bool) (s : pystr) (a b : N) :
  head s = Some a -> P a = false -> last s = Some b -> P b = false ->
  strip P s = s.
Proof.
  intros Ha HPa Hb HPb. unfold strip. rewrite lstrip_fixed.
  - by apply rstrip_fixed with b.
  - destruct s as [|x t]; [done|]. simpl in *. injection Ha as ->. by rewrite HPa.
Qed.

Lemma strip_nonempty (P : N -> bool) (s : pystr) (c : N) :
  c ∈ s -> P c = false -> strip P s <> [].
Proof.
  intros Hin Hc E. pose proof (strip_keeps P s c Hin Hc) as H.
  rewrite E in H. by apply not_elem_of_nil in H.
Qed.

(** A stripped line that holds the separator has text on both sides. *)
Lemma around_separator raw before after :
  strip isspace raw = before ++ separator ++ after ->
  strip isspace before <> [] /\ strip isspace after <> [].
Proof.
  intros Hline. split.
  - destruct before as [|c b].
    + apply strip_head in Hline. discriminate.
    + apply (strip_nonempty _ _ c); [set_solver|].
      by apply strip_head in Hline.
  - destruct (last after) as [d|] eqn:Hd.
    + apply (strip_nonempty _ _ d).
      * apply last_Some in Hd as [t ->]. set_solver.
      * apply (strip_last isspace raw). rewrite Hline.
        rewrite !last_app, Hd. done.
    + apply last_None in Hd as ->.
      assert (last (strip isspace raw) = Some 32%N) as H
        by (rewrite Hline, !last_app; reflexivity).
      apply strip_last in H. discriminate.
Qed.

Lemma parse_line_entry raw before after :
  strip isspace raw = before ++ separator ++ after ->
  (forall l r, strip isspace raw = l ++ separator ++ r ->
               (length before <= length l)%nat) ->
  parse_line raw = Entry (strip isspace before) (strip isspace after).
Proof.
  intros Hline Hfirst.
  destruct (around_separator raw before after Hline) as [Hb Ha].
  unfold parse_line.
  assert (contains separator (strip isspace raw) = true) as Hc
    by (apply contains_spec; eauto).
  destruct (strip isspace raw) as [|c line] eqn:E.
  { by destruct before. }
  rewrite Hc. simpl negb. cbv iota.
  unfold partition, contains in *.
  destruct (find separator (c :: line)) as [i|] eqn:Ei; [|done].
  pose proof (find_first _ _ _ _ _ Ei Hline) as Hle.
  destruct (find_Some _ _ _ Ei) as [Hsplit Hlen].
  pose proof (Hfirst _ _ Hsplit) as Hge.
  rewrite length_take in Hge.
  assert (i = length before) as -> by lia.
  rewrite Hline, take_app_length.
  rewrite <- drop_drop, drop_app_length.
  change (length separator) with 3%nat.
  replace (drop 3 (separator ++ after)) with after by reflexivity.
  destruct (strip isspace before); [done|].
  destruct (strip isspace after); done.
Qed.

Lemma parse_line_skipped raw :
  ~ (exists l r, strip isspace raw = l ++ separator ++ r) ->
  parse_line raw = Skipped.
Proof.
  intros Hno. unfold parse_line.
  destruct (strip isspace raw) as [|c line] eqn:E; [done|].
  destruct (contains separator (c :: line)) eqn:Hc; [|done].
  apply contains_spec in Hc. contradiction.
Qed.

Lemma parse_line_never_malformed raw : parse_line raw <> Malformed.
Proof.
  destruct (contains separator (strip isspace raw)) eqn:Hc.
  - unfold contains in Hc.
    destruct (find separator (strip isspace raw)) as [i|] eqn:Ei; [|done].
    destruct (find_Some _ _ _ Ei) as [Hsplit _].
    rewrite (parse_line_entry raw _ _ Hsplit); [done|].
    intros l r H. rewrite length_take.
    pose proof (find_first _ _ _ _ _ Ei H). lia.
  - rewrite parse_line_skipped; [done|].
    intros (l & r & H). by apply contains_false with (l := l) (r := r) in Hc.
Qed.

Lemma read_lines_entries lineno (lines : list pystr) :
  read_lines lineno lines = (omap (fun raw => entry_of (parse_line raw)) lines, []).
Proof.
  revert lineno. induction lines as [|raw rest IH]; intros lineno; [done|].
  simpl. rewrite IH. pose proof (parse_line_never_malformed raw).
  by destruct (parse_line raw).
Qed.

End ParserFacts.

(** C8.  [read_url_file] splits every line, taken without the white space
    around it, at the first occurrence of the three-character separator: the
    filename is the text before it and the URL all the text after it,
    further separators included, each without the white space around it (a
    field that has none is taken as it stands).  A line that is blank or
    lacks the separator gives no entry, and every line of the file is read:
    the list holds the entries of all the lines, in order. *)
Theorem read_url_file_splits_at_first_separator :
  (forall raw, strip isspace raw = [] -> parse_line raw = Skipped)
  /\ (forall raw,
        ~ (exists l r, strip isspace raw = l ++ separator ++ r) ->
        parse_line raw = Skipped)
  /\ (forall raw before after,
        strip isspace raw = before ++ separator ++ after ->
        (forall l r, strip isspace raw = l ++ separator ++ r ->
                     (length before <= length l)%nat) ->
        parse_line raw = Entry (strip isspace before) (strip isspace after)
        /\ strip isspace before <> [] /\ strip isspace after <> [])
  /\ (forall filename url a b c d,
        head filename = Some a -> last filename = Some b ->
        head url = Some c -> last url = Some d ->
        isspace a = false -> isspace b = false ->
        isspace c = false -> isspace d = false ->
        (forall l r, filename ++ separator ++ url = l ++ separator ++ r ->
                     (length filename <= length l)%nat) ->
        parse_line (filename ++ separator ++ url) = Entry filename url)
  /\ (forall lines,
        read_url_file lines
        = (omap (fun raw => entry_of (parse_line raw)) lines, [])).
Proof.
  split_and!.
  - intros raw H. unfold parse_line. by rewrite H.
  - apply parse_line_skipped.
  - intros raw before after Hline Hfirst. split.
    + by apply parse_line_entry.
    + by apply (around_separator raw).
  - intros filename url a b c d Ha Hb Hc Hd Isa Isb Isc Isd Hfirst.
    assert (strip isspace (filename ++ separator ++ url)
            = filename ++ separator ++ url) as Hline.
    { apply strip_fixed with a d; [|done| |done].
      - destruct filename; [done|]. done.
      - rewrite !last_app, Hd. done. }
    rewrite (parse_line_entry _ filename url Hline).
    + rewrite (strip_fixed isspace filename a b), (strip_fixed isspace url c d); done.
    + by rewrite Hline.
  - intros lines. apply read_lines_entries.
Qed.

Lemma read_url_file_splits_at_first_separator_witness :
  parse_line (py "  lora.safetensors - https://h/get?q=a - b  ")
  = Entry (py "lora.safetensors") (py "https://h/get?q=a - b")
  /\ parse_line (py "   ") = Skipped
  /\ parse_line (py "lora.safetensors https://h/get") = Skipped.
Proof.
  destruct read_url_file_splits_at_first_separator as (Hblank & Hnone & Hsplit & _).
  split_and!.
  - destruct (Hsplit (py "  lora.safetensors - https://h/get?q=a - b  ")
                (py "lora.safetensors") (py "https://h/get?q=a - b")) as [E _].
    + vm_compute; reflexivity.
    + intros l r H.
      apply (find_first separator
               (strip isspace (py "  lora.safetensors - https://h/get?q=a - b  "))
               16%nat l r); [vm_compute; reflexivity | exact H].
    + rewrite E. vm_compute; reflexivity.
  - apply Hblank. vm_compute; reflexivity.
  - apply Hnone. intros (l & r & H).
    apply (contains_false separator _ l r) in H; [done|].
    vm_compute; reflexivity.
Defined.

(** ** The worker *)

Section WorkerFacts.

Implicit Types (w : World) (env : Env) (p q : path) (name url token : pystr).

Ltac unfold_M :=
  unfold mbind, M_bind, mret, M_ret, modify, gets, print, raise_if,
    raise_when, raise.

Lemma set_files_id w : set_files (fun fs => fs) w = w.
Proof. by destruct w. Qed.

Lemma write_chunks_spec p cs w :
  write_chunks p cs w = (inr tt, set_files (grow p cs) w, []).
Proof.
  revert w. induction cs as [|c cs IH]; intros w; simpl.
  - unfold_M. unfold grow. simpl. by rewrite set_files_id.
  - unfold_M. rewrite IH. done.
Qed.

Lemma grow_lookup_ne p q cs fs : p <> q -> grow p cs fs !! q = fs !! q.
Proof.
  intros Hne. revert fs. unfold grow.
  induction cs as [|c cs IH]; intros fs; simpl; [done|].
  rewrite IH. by rewrite lookup_insert_ne.
Qed.

Lemma grow_lookup p cs fs n :
  fs !! p = Some n -> grow p cs fs !! p = Some (n + foldr Z.add 0 cs).
Proof.
  revert fs n. unfold grow.
  induction cs as [|c cs IH]; intros fs n Hn; simpl.
  - rewrite Hn. f_equal. lia.
  - rewrite (IH _ (n + c)).
    + f_equal. lia.
    + rewrite lookup_insert_eq, Hn. done.
Qed.

(** The session is the only thing [get_session] can add to the world. *)
Lemma get_session_frame tid token w :
  files (get_session tid token w).2 = files w
  /\ folders (get_session tid token w).2 = folders w
  /\ requests_sent (get_session tid token w).2 = requests_sent w.
Proof. unfold get_session. by destruct (thread_local w !! tid). Qed.

Lemma get_session_known tid token w s :
  thread_local w !! tid = Some s -> get_session tid token w = (s, w).
Proof. intros H. unfold get_session. by rewrite H. Qed.

Lemma get_session_keeps tid tid' token w s :
  thread_local w !! tid = Some s ->
  thread_local (get_session tid' token w).2 !! tid = Some s.
Proof.
  intros H. unfold get_session.
  destruct (thread_local w !! tid') eqn:E; simpl; [done|].
  rewrite lookup_insert_ne; [done | congruence].
Qed.

(** The [try] block in closed form: where it stops and what it leaves. *)
Lemma try_block_unfold name url session env w :
  try_block name url session env w =
  let tmp := tmp_path_of name in
  let w1 := log_request url session w in
  match get_raises env with
  | Some e => (inl e, w1, [])
  | None =>
    if open_raises env then (inl OSError, w1, [])
    else
      let w2 := set_files (grow tmp (chunks env))
                  (set_files (fun fs => <[tmp := 0]> fs) w1) in
      match stream_raises env with
      | Some e => (inl e, w2, [])
      | None =>
        match files w2 !! tmp with
        | None => (inl OSError, w2, [])
        | Some file_size =>
          let folder := destination_folder name file_size in
          if makedirs_raises env then (inl OSError, w2, [])
          else
            let w3 := add_folder folder w2 in
            if replace_raises env then (inl OSError, w3, [])
            else
              (inr tt,
               set_files (fun fs => <[ [folder; name] := file_size]> (delete tmp fs)) w3,
               [MsgOk name folder])
        end
      end
  end.
Proof.
  cbv beta iota zeta delta [try_block mbind M_bind mret M_ret modify gets print raise_if raise_when raise].
  destruct (get_raises env); [reflexivity|].
  destruct (open_raises env); [reflexivity|].
  rewrite write_chunks_spec.
  destruct (stream_raises env); [reflexivity|].
  destruct (files _ !! _); [|reflexivity].
  destruct (makedirs_raises env); [reflexivity|].
  destruct (replace_raises env); reflexivity.
Qed.

(** The [try] block touches neither the thread-local store nor the
    sessions, and sends exactly one request. *)
Lemma try_block_frame name url session env w :
  let '(_, w', _) := try_block name url session env w in
  thread_local w' = thread_local w
  /\ sessions_created w' = sessions_created w
  /\ requests_sent w' = requests_sent w ++ [(url, authorization session)].
Proof.
  rewrite try_block_unfold. cbv zeta.
  destruct (get_raises env); [done|].
  destruct (open_raises env); [done|].
  destruct (stream_raises env); [done|].
  destruct (files _ !! _); [|done].
  destruct (makedirs_raises env); [done|].
  destruct (replace_raises env); done.
Qed.

Lemma finally_remove_frame p env w :
  thread_local (finally_remove p env w) = thread_local w
  /\ sessions_created (finally_remove p env w) = sessions_created w
  /\ requests_sent (finally_remove p env w) = requests_sent w.
Proof.
  unfold finally_remove. destruct (exists_at w p); [|done].
  by destruct (remove_raises env).
Qed.

Lemma download_one_keeps tid tid' env filename url token w s :
  thread_local w !! tid = Some s ->
  thread_local (download_one tid' env filename url token w).1.2 !! tid = Some s.
Proof.
  intros H. unfold download_one.
  destruct (sanitize_filename filename) as [name|]; [|done].
  destruct (negb _); [done|].
  destruct (file_already_exists name w); [done|].
  pose proof (get_session_keeps tid tid' token w s H) as Hs.
  destruct (get_session tid' token w) as [session w1]. simpl in Hs.
  pose proof (try_block_frame name url session env w1) as Hf.
  destruct (try_block name url session env w1) as [[[e|[]] w2] out];
    destruct Hf as (Htl & _ & _); simpl.
  - destruct (finally_remove_frame (tmp_path_of name) env w2) as (-> & _ & _).
    by rewrite Htl.
  - by rewrite Htl.
Qed.

Lemma run_calls_keeps tid calls w s :
  thread_local w !! tid = Some s ->
  thread_local (run_calls calls w) !! tid = Some s.
Proof.
  revert w. unfold run_calls.
  induction calls as [|c calls IH]; intros w H; simpl; [done|].
  by apply IH, download_one_keeps.
Qed.

End WorkerFacts.

(** C10.  On one thread [get_session] makes the session once: the first call
    builds it with the Authorization header of the token it is given (none
    for an empty token), and every later call on that thread, whatever token
    it passes and whatever the workers of any thread did in between, returns
    that same session and leaves the world as it is. *)
Theorem get_session_fixed_by_first_call
    (tid : thread) (token : pystr) (w w1 : World) (s : Session) :
  thread_local w !! tid = None ->
  get_session tid token w = (s, w1) ->
  authorization s = bearer token
  /\ sessions_created w1 = S (sessions_created w)
  /\ forall calls token',
       let w2 := run_calls calls w1 in
       get_session tid token' w2 = (s, w2)
       /\ authorization (get_session tid token' w2).1 = bearer token
       /\ sessions_created (get_session tid token' w2).2 = sessions_created w2.
Proof.
  intros Hnew Hfirst. unfold get_session in Hfirst. rewrite Hnew in Hfirst.
  fold (bearer token) in Hfirst. injection Hfirst as <- <-.
  split_and!; [done | done |].
  intros calls token' w2.
  assert (get_session tid token' w2
          = (mkSession (sessions_created w) (bearer token), w2)) as E.
  { apply get_session_known. apply run_calls_keeps. simpl.
    apply lookup_insert_eq. }
  rewrite E. done.
Qed.

Lemma get_session_fixed_by_first_call_witness :
  let w0 := mkWorld ∅ ∅ ∅ 0 [] in
  let w1 := (get_session 7%nat (py "first") w0).2 in
  get_session 7%nat (py "second") w1
  = (mkSession 0 (Some (py "Bearer first")), w1).
Proof.
  intros w0 w1.
  destruct (get_session_fixed_by_first_call 7%nat (py "first") w0 w1
              (mkSession 0 (Some (py "Bearer first"))) eq_refl eq_refl)
    as (_ & _ & H).
  destruct (H [] (py "second")) as (E & _ & _). exact E.
Defined.

Section DownloadFacts.

Implicit Types (w : World) (env : Env) (name url token : pystr).

Lemma exists_at_false w (p : path) : exists_at w p = false -> files w !! p = None.
Proof.
  unfold exists_at. intros H%bool_decide_eq_false. by apply eq_None_not_Some.
Qed.

Lemma exists_at_true w (p : path) : is_Some (files w !! p) -> exists_at w p = true.
Proof. intros H. unfold exists_at. by apply bool_decide_eq_true. Qed.

Lemma destination_folder_cases name size :
  destination_folder name size ∈ [py "embeddings"; py "loras"; py "models"].
Proof.
  unfold destination_folder. rewrite !elem_of_cons.
  destruct (decide _); [auto|]. destruct (_ <=? _); auto.
Qed.

Lemma not_already_exists name w folder :
  file_already_exists name w = false ->
  folder ∈ [py "embeddings"; py "loras"; py "models"] ->
  files w !! [folder; name] = None.
Proof.
  unfold file_already_exists. simpl. rewrite !orb_false_iff.
  intros (H1 & H2 & H3 & _). rewrite !elem_of_cons, elem_of_nil.
  intros [-> | [-> | [-> | []]]]; by apply exists_at_false.
Qed.

Lemma already_exists name w folder :
  folder ∈ [py "embeddings"; py "loras"; py "models"] ->
  is_Some (files w !! [folder; name]) ->
  file_already_exists name w = true.
Proof.
  unfold file_already_exists. simpl. rewrite !elem_of_cons, elem_of_nil.
  intros [-> | [-> | [-> | []]]] H%exists_at_true; rewrite H;
    by rewrite ?orb_true_r.
Qed.

Lemma valid_extension_test name :
  extension name ∈ VALID_EXTENSIONS ->
  negb (bool_decide (extension name ∈ VALID_EXTENSIONS)) = false.
Proof. intros H. by rewrite bool_decide_eq_true_2. Qed.

End DownloadFacts.

(** C7.  When the name sanitizes, has an accepted extension and a file of
    that name is in one of the folders [embeddings], [loras], [models], the
    worker returns [True], reports EXISTS and leaves the world as it was: no
    request is sent, no session is made, no file is touched. *)
Theorem existing_file_needs_no_request
    (tid : thread) (env : Env) (filename url token name folder : pystr)
    (w : World) :
  sanitize_filename filename = Ok name ->
  extension name ∈ VALID_EXTENSIONS ->
  folder ∈ [py "embeddings"; py "loras"; py "models"] ->
  is_Some (files w !! [folder; name]) ->
  download_one tid env filename url token w = (true, w, [MsgExists name])
  /\ requests_sent (download_one tid env filename url token w).1.2
     = requests_sent w.
Proof.
  intros Hsan Hext Hfolder Hfile.
  assert (download_one tid env filename url token w = (true, w, [MsgExists name])) as E.
  { unfold download_one. rewrite Hsan, (valid_extension_test _ Hext).
    by rewrite (already_exists name w folder). }
  by rewrite E.
Qed.

Lemma existing_file_needs_no_request_witness :
  let w := mkWorld {[ [py "models"; py "v1_5.safetensors"] := 4265146304 ]}
                   ∅ ∅ 0 [] in
  let env := mkEnv None false [65536] None false false false in
  download_one 0%nat env (py "sd/v1:5.safetensors") (py "https://h/1") (py "t") w
  = (true, w, [MsgExists (py "v1_5.safetensors")]).
Proof.
  intros w env.
  apply (existing_file_needs_no_request 0%nat env (py "sd/v1:5.safetensors")
           (py "https://h/1") (py "t") (py "v1_5.safetensors") (py "models") w).
  - vm_compute; reflexivity.
  - apply (bool_decide_unpack _). vm_compute. exact I.
  - apply (bool_decide_unpack _). vm_compute. exact I.
  - apply (bool_decide_unpack _). vm_compute. exact I.
Defined.

(** C6.  When the request has been answered and the temporary file opened,
    and a fault of any of the caught kinds then ends the stream, the worker
    returns [False] and reports that fault; no file is at the destination
    path, whatever folder the size would have chosen; no file other than the
    temporary one is touched, and the temporary file is gone unless its
    removal itself fails, which changes neither the result nor the report. *)
Theorem midstream_fault_leaves_nothing
    (tid : thread) (env : Env) (filename url token name : pystr)
    (w : World) (e : exn) :
  sanitize_filename filename = Ok name ->
  extension name ∈ VALID_EXTENSIONS ->
  file_already_exists name w = false ->
  get_raises env = None ->
  open_raises env = false ->
  stream_raises env = Some e ->
  exists w',
    download_one tid env filename url token w = (false, w', [fail_msg name e])
    /\ (forall size, files w' !! [destination_folder name size; name] = None)
    /\ (forall q, q <> tmp_path_of name -> files w' !! q = files w !! q)
    /\ (remove_raises env = false -> files w' !! tmp_path_of name = None).
Proof.
  intros Hsan Hext Hnew Hget Hopen Hstream.
  unfold download_one. rewrite Hsan, (valid_extension_test _ Hext), Hnew.
  destruct (get_session_frame tid token w) as (Hfiles & _ & _).
  destruct (get_session tid token w) as [session w1]. simpl in Hfiles.
  rewrite try_block_unfold, Hget, Hopen, Hstream. cbv zeta.
  eexists. split; [reflexivity|].
  set (tmp := tmp_path_of name).
  set (w2 := set_files (grow tmp (chunks env)) _).
  assert (forall q, q <> tmp -> files w2 !! q = files w !! q) as Hother.
  { intros q Hq. unfold w2. simpl.
    rewrite grow_lookup_ne by done. rewrite lookup_insert_ne by done.
    by rewrite Hfiles. }
  assert (exists_at w2 tmp = true) as Htmp.
  { apply exists_at_true. unfold w2. simpl.
    erewrite grow_lookup; [done | apply lookup_insert_eq]. }
  assert (forall q, q <> tmp ->
            files (finally_remove tmp env w2) !! q = files w !! q) as Hkept.
  { intros q Hq. unfold finally_remove. rewrite Htmp.
    destruct (remove_raises env); simpl; [by apply Hother|].
    rewrite lookup_delete_ne by done. by apply Hother. }
  split_and!.
  - intros size. rewrite Hkept by done.
    apply not_already_exists; [done | apply destination_folder_cases].
  - exact Hkept.
  - intros Hrm. unfold finally_remove. rewrite Htmp, Hrm. simpl.
    apply lookup_delete_eq.
Qed.

Lemma midstream_fault_leaves_nothing_witness :
  let w := mkWorld ∅ ∅ ∅ 0 [] in
  let env := mkEnv None false [65536; 65536] (Some RequestException)
                   false false false in
  exists w',
    download_one 0%nat env (py "a/lora.safetensors") (py "https://h/1") (py "t") w
    = (false, w', [MsgFailRequest (py "lora.safetensors")])
    /\ files w' !! [py "lora.safetensors.part"] = None
    /\ files w' !! [py "loras"; py "lora.safetensors"] = None.
Proof.
  intros w env.
  destruct (midstream_fault_leaves_nothing 0%nat env (py "a/lora.safetensors")
              (py "https://h/1") (py "t") (py "lora.safetensors") w
              RequestException)
    as (w' & E & Hdest & _ & Htmp).
  - vm_compute; reflexivity.
  - apply (bool_decide_unpack _). vm_compute. exact I.
  - vm_compute; reflexivity.
  - reflexivity.
  - reflexivity.
  - reflexivity.
  - exists w'. split_and!.
    + exact E.
    + apply Htmp. reflexivity.
    + apply (Hdest 0).
Defined.

(** C9.  When the input list yields no entry, [main] exits with code 1 and
    the world is as it was: no request sent, no file or folder made, no
    session created. *)
Theorem no_entries_exits_before_any_download
    (args : Args) (environ_token : pystr) (typed : option pystr)
    (sched : Schedule) (w : World) :
  (read_url_file (url_file args)).1 = [] ->
  (main args environ_token typed sched w).1.1 = 1
  /\ (main args environ_token typed sched w).1.2 = w
  /\ requests_sent (main args environ_token typed sched w).1.2 = requests_sent w
  /\ files (main args environ_token typed sched w).1.2 = files w.
Proof.
  intros Hnone. unfold main.
  destruct (get_token environ_token typed) as [token|]; [|done].
  destruct (read_url_file (url_file args)) as [pairs out0].
  simpl in Hnone. subst pairs. done.
Qed.

Lemma no_entries_exits_before_any_download_witness :
  let args := mkArgs [py "# models"; []; py "lora.safetensors"] 5 3 in
  let w := mkWorld ∅ ∅ ∅ 0 [] in
  (main args (py "token") None (fun _ _ => (0%nat, mkEnv None false [] None false false false)) w).1.1
  = 1.
Proof.
  intros args w.
  apply (no_entries_exits_before_any_download args (py "token") None _ w).
  vm_compute; reflexivity.
Defined.

(** ** The retry loop *)

Section LoopFacts.

Implicit Types (w : World) (pending : list task) (t : task)
  (results : list (task * bool)) (token : pystr).

Lemma executor_map_cons sched token i t pending w :
  executor_map sched token i (t :: pending) w =
  let r := download_one (sched i).1 (sched i).2 t.1 t.2 token w in
  let rs := executor_map sched token (S i) pending r.1.2 in
  ((t, r.1.1) :: rs.1.1, rs.1.2, r.2 ++ rs.2).
Proof.
  simpl. destruct (download_one _ _ _ _ _ _) as [[ok w1] out1]. simpl.
  by destruct (executor_map _ _ _ _ _) as [[rs w2] out2].
Qed.

(** Every pending task gets one result, in the order of the pending list. *)
Lemma executor_map_tasks sched token i pending w :
  (executor_map sched token i pending w).1.1.*1 = pending.
Proof.
  revert i w. induction pending as [|t pending IH]; intros i w; [done|].
  rewrite executor_map_cons. simpl. by rewrite IH.
Qed.

Lemma failed_cons t (ok : bool) results :
  failed ((t, ok) :: results) = if ok then failed results else t :: failed results.
Proof. unfold failed. simpl. by destruct ok. Qed.

Lemma failed_sublist results : failed results `sublist_of` results.*1.
Proof.
  induction results as [|[t ok] results IH]; [done|].
  rewrite failed_cons, fmap_cons. simpl.
  destruct ok; [by apply sublist_cons | by apply sublist_skip].
Qed.

Lemma elem_of_failed t results : t ∈ failed results <-> (t, false) ∈ results.
Proof.
  induction results as [|[t' ok] results IH].
  - unfold failed. simpl. by rewrite !elem_of_nil.
  - rewrite failed_cons, elem_of_cons. destruct ok.
    + rewrite IH. split; [auto | intros [[=] | H]; done].
    + rewrite elem_of_cons, IH. split; intros [E | H]; auto.
      * left. by rewrite E.
      * left. by injection E.
Qed.


Lemma for_attempts_succ sched token max_threads retries n attempt pending w :
  for_attempts sched token max_threads retries (S n) attempt pending w =
  let banner := if 1 <? attempt
                then [MsgRetryAttempt attempt retries (length pending)] else [] in
  if max_threads <=? 0 then (PoolValueError, w, banner)
  else
    let r := executor_map (sched attempt) token 0 pending w in
    match failed r.1.1 with
    | [] => (AllSucceeded, r.1.2, banner ++ r.2 ++ [MsgAllDownloaded])
    | pending' =>
        let f := for_attempts sched token max_threads retries n (attempt + 1)
                   pending' r.1.2 in
        (f.1.1, f.1.2, banner ++ r.2 ++ f.2)
    end.
Proof.
  simpl. destruct (max_threads <=? 0); [done|].
  destruct (executor_map _ _ _ _ _) as [[results w1] out1]. simpl.
  destruct (failed results); [done|].
  by destruct (for_attempts _ _ _ _ _ _ _ _) as [[f w2] out2].
Qed.









End LoopFacts.

Section MachineFacts.

Implicit Types (w : World) (pending : list task) (token : pystr).





(** The worker and the loop print no line of the final summary. *)
Lemma download_one_summary tid env filename url token w :
  failure_summary (download_one tid env filename url token w).2 = [].
Proof.
  unfold download_one.
  destruct (sanitize_filename filename) as [name|]; [|done].
  destruct (negb _); [done|].
  destruct (file_already_exists name w); [done|].
  destruct (get_session tid token w) as [session w1].
  rewrite try_block_unfold. cbv zeta.
  destruct (get_raises env) as [[]|]; [done..|].
  destruct (open_raises env); [done|].
  destruct (stream_raises env) as [[]|]; [done..|].
  destruct (files _ !! _); [|done].
  destruct (makedirs_raises env); [done|].
  destruct (replace_raises env); done.
Qed.

Lemma failure_summary_app (out1 out2 : list msg) :
  failure_summary (out1 ++ out2) = failure_summary out1 ++ failure_summary out2.
Proof. apply omap_app. Qed.

Lemma executor_map_summary sched token i pending w :
  failure_summary (executor_map sched token i pending w).2 = [].
Proof.
  revert i w. induction pending as [|t pending IH]; intros i w; [done|].
  rewrite executor_map_cons. cbv zeta. cbn [snd].
  by rewrite failure_summary_app, download_one_summary, IH.
Qed.

Lemma for_attempts_summary sched token max_threads retries n attempt pending w :
  failure_summary
    (for_attempts sched token max_threads retries n attempt pending w).2 = [].
Proof.
  revert attempt pending w. induction n as [|n IH]; intros attempt pending w;
    [done|].
  rewrite for_attempts_succ. cbv zeta.
  assert (failure_summary
            (if 1 <? attempt
             then [MsgRetryAttempt attempt retries (length pending)] else [])
          = []) as Hb by (by destruct (1 <? attempt)).
  destruct (max_threads <=? 0); [done|].
  destruct (failed _); cbn [snd];
    rewrite !failure_summary_app, Hb, executor_map_summary; [done|].
  by rewrite IH.
Qed.

Lemma failure_summary_remaining (names : list pystr) :
  failure_summary (MsgRemaining <$> names) = names.
Proof.
  unfold failure_summary.
  induction names as [|x names IH]; [done|].
  rewrite fmap_cons. cbn. f_equal. exact IH.
Qed.

(** The exit code and the summary of [main] follow the end of the loop. *)
Lemma main_outcome args environ_token typed sched w token :
  get_token environ_token typed = Some token ->
  (read_url_file (url_file args)).1 <> [] ->
  let f := (retry_loop sched token (max_threads args) (retries args)
              (read_url_file (url_file args)).1 w).1.1 in
  (main args environ_token typed sched w).1.1 = exit_code_of f
  /\ failure_summary (main args environ_token typed sched w).2 = summary_of f.
Proof.
  intros Htok Hne f. subst f. unfold main. rewrite Htok.
  unfold read_url_file in *. rewrite read_lines_entries in *. cbn [fst] in *.
  destruct (omap _ _) as [|t ts] eqn:Hp; [done|].
  pose proof (for_attempts_summary sched token (max_threads args) (retries args)
                (Z.to_nat (retries args)) 1 (t :: ts) w) as Hs.
  unfold retry_loop.
  destruct (for_attempts _ _ _ _ _ _ _ _) as [[[|remaining|] w1] out1];
    cbn [fst snd] in *.
  - split; [done|]. rewrite !failure_summary_app, Hs. done.
  - split; [done|]. rewrite !failure_summary_app, Hs.
    by rewrite failure_summary_remaining.
  - split; [done|]. rewrite !failure_summary_app, Hs. done.
Qed.



End MachineFacts.

Section TraceFacts.

Implicit Types (w : World) (pending : list task) (token : pystr) (t : task).








End TraceFacts.

(** ** Positions *)

Section PositionFacts.

Implicit Types (ps : list nat) (results : list (task * bool))
  (pairs : list task).









End PositionFacts.







(** * Further properties of the script *)

(** ** The sanitizer and the path functions *)

Section MoreSanitizerFacts.

Implicit Types (raw name s : pystr) (P : N -> bool) (c : N).

Lemma lstrip_all P s : forallb P s = true -> lstrip P s = [].
Proof.
  induction s as [|x s IH]; simpl; [done|].
  intros [Hx Hs]%andb_true_iff. rewrite Hx. by apply IH.
Qed.

Lemma strip_nil_iff P s : strip P s = [] <-> forallb P s = true.
Proof.
  split.
  - intros E. apply forallb_forall. intros c Hc%list_elem_of_In.
    destruct (P c) eqn:HP; [done|].
    exfalso. by apply (strip_nonempty P s c).
  - intros H. unfold strip. by rewrite lstrip_all.
Qed.

Lemma strip_length P s : (length (strip P s) <= length s)%nat.
Proof.
  destruct (strip_infix P s) as (l & r & E). rewrite E at 2.
  rewrite !length_app. lia.
Qed.

Lemma basename_length raw : (length (OsPath.basename raw) <= length raw)%nat.
Proof.
  destruct (basename_spec raw) as [[_ ->] | (l & t & E & _ & ->)]; [done|].
  rewrite E, length_app. simpl. lia.
Qed.

Lemma one_of_dot_space c :
  one_of (py ". ") c = true <-> c = ch "." \/ c = ch " ".
Proof.
  unfold one_of. simpl. rewrite !orb_true_iff, !N.eqb_eq.
  split; [intros [?|[?|?]]; auto; done | intros [?|?]; auto].
Qed.

Lemma re_sub_dot_space c :
  one_of (py ". ") (if dangerous c then ch "_" else c) = one_of (py ". ") c.
Proof.
  destruct (dangerous c) eqn:Hd; [|done].
  destruct (one_of (py ". ") c) eqn:Ho; [|done].
  apply one_of_dot_space in Ho as [-> | ->]; discriminate.
Qed.

Lemma re_sub_all_dot_space s :
  forallb (one_of (py ". ")) (re_sub_dangerous s)
  = forallb (one_of (py ". ")) s.
Proof.
  unfold re_sub_dangerous. induction s as [|c s IH]; [done|].
  rewrite fmap_cons. cbn [forallb]. by rewrite re_sub_dot_space, IH.
Qed.

Lemma sanitize_result_no_dotdot raw name :
  sanitize_filename raw = Ok name -> contains (py "..") name = false.
Proof.
  intros (Hdd & -> & _)%sanitize_Ok. by apply strip_no_dotdot, re_sub_no_dotdot.
Qed.

End MoreSanitizerFacts.

(** X1.  A name that [sanitize_filename] returns is safe to join to a
    folder: it is not empty, it has no character of the substituted class
    (so no slash, no backslash, no control character), it has no [..], it
    neither starts nor ends with a dot or a space, and it is no longer than
    the raw name. *)
Theorem sanitize_result_is_safe (raw name : pystr) :
  sanitize_filename raw = Ok name ->
  name <> []
  /\ Forall (fun c => dangerous c = false) name
  /\ (OsPath.sep ∉ name) /\ (92%N ∉ name) /\ (0%N ∉ name)
  /\ contains (py "..") name = false
  /\ (forall c, head name = Some c -> c <> ch "." /\ c <> ch " ")
  /\ (forall c, last name = Some c -> c <> ch "." /\ c <> ch " ")
  /\ (length name <= length raw)%nat.
Proof.
  intros Hsan.
  destruct (sanitize_Ok_clean _ _ Hsan) as [Hclean Hsep].
  pose proof (sanitize_result_no_dotdot _ _ Hsan) as Hdd.
  apply sanitize_Ok in Hsan as (_ & Hname & Hne).
  assert (forall c, one_of (py ". ") c = false -> c <> ch "." /\ c <> ch " ") as Hout.
  { intros c Hc. split; intros ->; discriminate. }
  split_and!; try done.
  - intros Hin. unfold clean in Hclean. rewrite Forall_forall in Hclean.
    specialize (Hclean _ Hin). discriminate.
  - intros Hin. unfold clean in Hclean. rewrite Forall_forall in Hclean.
    specialize (Hclean _ Hin). discriminate.
  - intros c Hc. apply Hout. destruct name as [|x r]; [done|].
    injection Hc as ->. symmetry in Hname. by apply strip_head in Hname.
  - intros c Hc. apply Hout. rewrite Hname in Hc. by apply strip_last in Hc.
  - rewrite Hname. etrans; [apply strip_length|].
    unfold re_sub_dangerous. rewrite length_fmap. apply basename_length.
Qed.

Lemma sanitize_result_is_safe_witness :
  py "a_b_.safetensors" <> []
  /\ contains (py "..") (py "a_b_.safetensors") = false.
Proof.
  destruct (sanitize_result_is_safe (py "x/ .a:b?.safetensors. ")
              (py "a_b_.safetensors")) as (H1 & _ & _ & _ & _ & H2 & _).
  - vm_compute; reflexivity.
  - split; [exact H1 | exact H2].
Defined.

(** X2.  The names [sanitize_filename] returns unchanged are exactly the
    names that are not empty, have no character of the substituted class, no
    [..], and no dot or space at either end. *)
Theorem sanitize_fixed_points (raw : pystr) :
  sanitize_filename raw = Ok raw
  <-> raw <> []
      /\ Forall (fun c => dangerous c = false) raw
      /\ contains (py "..") raw = false
      /\ strip (one_of (py ". ")) raw = raw.
Proof.
  split.
  - intros Hsan.
    destruct (sanitize_Ok_clean _ _ Hsan) as [Hclean _].
    pose proof (sanitize_result_no_dotdot _ _ Hsan) as Hdd.
    apply sanitize_Ok in Hsan as (_ & Hname & Hne).
    split_and!; try done. rewrite Hname at 1. rewrite strip_idemp. done.
  - intros (Hne & Hclean & Hdd & Hstrip).
    unfold sanitize_filename.
    rewrite (basename_fixed raw (clean_no_sep raw Hclean)), Hdd.
    rewrite (re_sub_fixed raw Hclean), Hstrip. by destruct raw.
Qed.

Lemma sanitize_fixed_points_witness :
  sanitize_filename (py "Some Model v1.5.safetensors")
  = Ok (py "Some Model v1.5.safetensors").
Proof.
  apply (sanitize_fixed_points (py "Some Model v1.5.safetensors")).
  split_and!.
  - done.
  - apply (bool_decide_unpack _). vm_compute. exact I.
  - vm_compute; reflexivity.
  - vm_compute; reflexivity.
Defined.

(** X3.  [sanitize_filename] raises the empty-name error exactly when the
    final path segment has no [..] and holds nothing but dots and spaces;
    in particular every raw name that ends with a slash is refused. *)
Theorem sanitize_empty_iff (raw : pystr) :
  (sanitize_filename raw = Raise EmptyAfterSanitization
   <-> contains (py "..") (OsPath.basename raw) = false
       /\ forallb (one_of (py ". ")) (OsPath.basename raw) = true)
  /\ sanitize_filename (raw ++ [OsPath.sep]) = Raise EmptyAfterSanitization.
Proof.
  assert (forall r,
            sanitize_filename r = Raise EmptyAfterSanitization
            <-> contains (py "..") (OsPath.basename r) = false
                /\ forallb (one_of (py ". ")) (OsPath.basename r) = true) as H.
  { intros r. unfold sanitize_filename.
    destruct (contains (py "..") (OsPath.basename r)) eqn:Hdd.
    - split; [done | intros [? _]; done].
    - rewrite <- re_sub_all_dot_space, <- strip_nil_iff.
      destruct (strip _ _) eqn:E; split; try done.
      + intros [_ ?]; done. }
  split; [apply H|]. apply H.
  rewrite (basename_app raw [] (not_elem_of_nil _)). done.
Qed.

Lemma sanitize_empty_iff_witness :
  sanitize_filename (py "models/. .") = Raise EmptyAfterSanitization
  /\ sanitize_filename (py "models/") = Raise EmptyAfterSanitization.
Proof.
  split.
  - apply (proj1 (sanitize_empty_iff (py "models/. ."))).
    split; vm_compute; reflexivity.
  - apply (proj2 (sanitize_empty_iff (py "models"))).
Defined.

Section MorePathFacts.

Implicit Types (p l t : pystr) (c : N).

Lemma rfind_lower_bound c p : -1 <= rfind c p.
Proof.
  unfold rfind.
  destruct (rfind_from_spec c p 0 (-1)) as [[_ ->] | (l & t & _ & _ & ->)]; lia.
Qed.

(** What follows the last occurrence of [c] holds no occurrence of a
    character whose last occurrence is earlier. *)
Lemma after_last_occurrence c d p l t :
  p = l ++ c :: t -> rfind d p < Z.of_nat (length l) -> d ∉ t.
Proof.
  intros Hp Hlt. unfold rfind in Hlt.
  destruct (rfind_from_spec d p 0 (-1)) as [[Hnot _] | (l' & t' & Hp' & Ht' & E)].
  - intros Hin. apply Hnot. rewrite Hp. set_solver.
  - rewrite E in Hlt.
    assert (t' = drop (S (length l')) l ++ c :: t) as ->.
    { transitivity (drop (S (length l')) p).
      - rewrite Hp'. change (l' ++ d :: t') with (l' ++ [d] ++ t').
        rewrite app_assoc. rewrite drop_app_length'; [done|].
        rewrite length_app. simpl. lia.
      - rewrite Hp. rewrite drop_app_le by lia. done. }
    intros Hin. apply Ht'. set_solver.
Qed.

End MorePathFacts.

(** X4.  [os.path.splitext] cuts a path in two parts that give the path
    back when joined; the extension is empty, or it starts with a dot and
    has no other dot and no slash. *)
Theorem splitext_parts (p : pystr) :
  (OsPath.splitext p).1 ++ (OsPath.splitext p).2 = p
  /\ ((OsPath.splitext p).2 = []
      \/ exists t, (OsPath.splitext p).2 = OsPath.extsep :: t
                   /\ (OsPath.extsep ∉ t) /\ (OsPath.sep ∉ t)).
Proof.
  unfold OsPath.splitext.
  pose proof (rfind_lower_bound OsPath.sep p) as Hsep.
  assert (rfind OsPath.extsep p = -1
          \/ exists l t, p = l ++ OsPath.extsep :: t /\ (OsPath.extsep ∉ t)
                          /\ rfind OsPath.extsep p = Z.of_nat (length l)) as Hdot.
  { unfold rfind.
    destruct (rfind_from_spec OsPath.extsep p 0 (-1))
      as [[_ E] | (l & t & Hp & Ht & E)]; [by left|].
    right. exists l, t. split_and!; [done | done | lia]. }
  destruct Hdot as [E | (l & t & Hp & Ht & E)]; rewrite E.
  - destruct (Z.ltb_spec (rfind OsPath.sep p) (-1)); [lia|].
    simpl. split; [apply app_nil_r | by left].
  - destruct (Z.ltb_spec (rfind OsPath.sep p) (Z.of_nat (length l))) as [Hlt|Hge].
    + destruct (forallb _ _).
      * simpl. split; [apply app_nil_r | by left].
      * unfold upto, from. rewrite Nat2Z.id.
        simpl. split; [apply take_drop|]. right. exists t.
        split_and!; [|done|].
        -- rewrite Hp at 1. by rewrite drop_app_length.
        -- by apply (after_last_occurrence OsPath.extsep OsPath.sep p l t Hp).
    + simpl. split; [apply app_nil_r | by left].
Qed.

Section MoreParserFacts.

Implicit Types (raw line before after : pystr).

Lemma parse_line_Entry_inv raw filename url :
  parse_line raw = Entry filename url ->
  exists before after,
    strip isspace raw = before ++ separator ++ after
    /\ (forall l r, strip isspace raw = l ++ separator ++ r ->
                    (length before <= length l)%nat)
    /\ filename = strip isspace before
    /\ url = strip isspace after.
Proof.
  intros Hparse.
  destruct (contains separator (strip isspace raw)) eqn:Hc.
  - unfold contains in Hc.
    destruct (find separator (strip isspace raw)) as [i|] eqn:Ei; [|done].
    destruct (find_Some _ _ _ Ei) as [Hsplit _].
    assert (forall l r, strip isspace raw = l ++ separator ++ r ->
              (length (take i (strip isspace raw)) <= length l)%nat) as Hfirst.
    { intros l r H. rewrite length_take.
      pose proof (find_first _ _ _ _ _ Ei H). lia. }
    rewrite (parse_line_entry raw _ _ Hsplit Hfirst) in Hparse.
    injection Hparse as <- <-. eauto 10.
  - rewrite parse_line_skipped in Hparse; [done|].
    intros (l & r & H). by apply contains_false with (l := l) (r := r) in Hc.
Qed.

(** No more entries than lines. *)
Lemma entries_length (lines : list pystr) :
  (length (omap (fun raw => entry_of (parse_line raw)) lines)
   <= length lines)%nat.
Proof.
  induction lines as [|raw rest IH]; [done|].
  cbn. destruct (entry_of (parse_line raw)); simpl; lia.
Qed.

End MoreParserFacts.

(** X5.  Every entry [read_url_file] returns has a filename and a URL that
    are not empty and have no white space at either end, and the filename
    holds no separator.  There are no more entries than lines, and the
    warning of the malformed-entry branch is never printed. *)
Theorem read_url_file_entries_well_formed (lines : list pystr) :
  (read_url_file lines).2 = []
  /\ (length (read_url_file lines).1 <= length lines)%nat
  /\ (forall filename url,
        (filename, url) ∈ (read_url_file lines).1 ->
        trimmed_field filename /\ trimmed_field url
        /\ contains separator filename = false).
Proof.
  unfold read_url_file. rewrite read_lines_entries. cbn [fst snd].
  split_and!; [done | apply entries_length |].
  intros filename url (raw & _ & Hraw)%list_elem_of_omap.
  assert (parse_line raw = Entry filename url) as Hparse.
  { destruct (parse_line raw); try discriminate. by injection Hraw as -> ->. }
  apply parse_line_Entry_inv in Hparse
    as (before & after & Hline & Hfirst & -> & ->).
  destruct (around_separator raw before after Hline) as [Hb Ha].
  split_and!.
  - split; [done | apply strip_idemp].
  - split; [done | apply strip_idemp].
  - apply not_true_is_false. intros (l & r & E)%contains_spec.
    destruct (strip_infix isspace before) as (l0 & r0 & Hb0).
    rewrite E in Hb0.
    specialize (Hfirst (l0 ++ l) (r ++ r0 ++ separator ++ after)).
    assert (length before <= length (l0 ++ l))%nat as Hle.
    { apply Hfirst. rewrite Hline, Hb0. by rewrite <- !app_assoc. }
    rewrite Hb0 in Hle. rewrite !length_app in Hle. simpl in Hle. lia.
Qed.

Lemma read_url_file_entries_well_formed_witness :
  trimmed_field (py "a.pt") /\ trimmed_field (py "https://h/a - b").
Proof.
  destruct (read_url_file_entries_well_formed
              [py "# list"; py "  a.pt -   https://h/a - b "])
    as (_ & _ & H).
  destruct (H (py "a.pt") (py "https://h/a - b")) as (Hf & Hu & _).
  - apply (bool_decide_unpack _). vm_compute. exact I.
  - split; [exact Hf | exact Hu].
Defined.

(** ** The worker past its three gates *)

Section MoreWorkerFacts.

Implicit Types (w : World) (env : Env) (name url token : pystr) (q : path).

Lemma tmp_is_no_destination name folder stored :
  [folder; stored] <> tmp_path_of name.
Proof. done. Qed.

Lemma delete_grow (p : path) (cs : list Z) (n : Z) (fs : gmap path Z) :
  delete p (grow p cs (<[p := n]> fs)) = delete p fs.
Proof.
  apply map_eq. intros q. destruct (decide (p = q)) as [<-|Hne].
  - by rewrite !lookup_delete_eq.
  - rewrite !lookup_delete_ne by done. rewrite grow_lookup_ne by done.
    by rewrite lookup_insert_ne.
Qed.

Lemma finally_remove_files (p : path) env w :
  files (finally_remove p env w)
  = if remove_raises env then files w else delete p (files w).
Proof.
  unfold finally_remove. destruct (exists_at w p) eqn:E.
  - by destruct (remove_raises env).
  - destruct (remove_raises env); [done|].
    apply exists_at_false in E. by rewrite delete_id.
Qed.

Lemma finally_remove_folders (p : path) env w :
  folders (finally_remove p env w) = folders w.
Proof.
  unfold finally_remove. destruct (exists_at w p); [|done].
  by destruct (remove_raises env).
Qed.

(** The worker once the name is accepted and no file of that name is
    stored: one session lookup, the [try] block, and the clean-up. *)
Lemma download_one_attempt tid env filename url token name w :
  sanitize_filename filename = Ok name ->
  extension name ∈ VALID_EXTENSIONS ->
  file_already_exists name w = false ->
  download_one tid env filename url token w =
  match try_block name url (get_session tid token w).1 env
          (get_session tid token w).2 with
  | (inr _, w2, out) => (true, w2, out)
  | (inl e, w2, out) =>
      (false, finally_remove (tmp_path_of name) env w2,
       out ++ [fail_msg name e])
  end.
Proof.
  intros Hsan Hext Hnew. unfold download_one.
  rewrite Hsan, (valid_extension_test _ Hext), Hnew.
  by destruct (get_session tid token w).
Qed.

(** The files the [try] block leaves: the stored file when it ends, and
    otherwise nothing but the temporary file differs. *)
Lemma try_block_files name url session env w :
  match try_block name url session env w with
  | (inr _, w2, out) =>
      let total := foldr Z.add 0 (chunks env) in
      let folder := destination_folder name total in
      files w2 = <[ [folder; name] := total ]> (delete (tmp_path_of name) (files w))
      /\ folders w2 = {[folder]} ∪ folders w
      /\ out = [MsgOk name folder]
  | (inl e, w2, out) =>
      delete (tmp_path_of name) (files w2) = delete (tmp_path_of name) (files w)
      /\ out = []
  end.
Proof.
  rewrite try_block_unfold. cbv zeta.
  destruct (get_raises env); [done|].
  destruct (open_raises env); [done|].
  destruct (stream_raises env).
  { simpl. split; [apply delete_grow | done]. }
  simpl. erewrite grow_lookup by apply lookup_insert_eq.
  rewrite Z.add_0_l.
  destruct (makedirs_raises env).
  { simpl. split; [apply delete_grow | done]. }
  destruct (replace_raises env).
  { simpl. split; [apply delete_grow | done]. }
  simpl. by rewrite delete_grow.
Qed.

Lemma try_block_requests name url session env w :
  requests_sent (try_block name url session env w).1.2
  = requests_sent w ++ [(url, authorization session)].
Proof.
  pose proof (try_block_frame name url session env w) as H.
  destruct (try_block name url session env w) as [[r w2] out].
  by destruct H as (_ & _ & H).
Qed.

End MoreWorkerFacts.

(** X6.  When nothing fails, the worker returns [True], reports OK and has
    sent one request, with the header of the thread's session; the whole body
    is stored under the sanitized name in the folder that [destination_folder]
    gives for the number of bytes written, that folder is made, and no file
    is left at the temporary path. *)
Theorem download_stores_file
    (tid : thread) (env : Env) (filename url token name : pystr) (w : World) :
  sanitize_filename filename = Ok name ->
  extension name ∈ VALID_EXTENSIONS ->
  file_already_exists name w = false ->
  get_raises env = None -> open_raises env = false ->
  stream_raises env = None ->
  makedirs_raises env = false -> replace_raises env = false ->
  let total := foldr Z.add 0 (chunks env) in
  let folder := destination_folder name total in
  exists w',
    download_one tid env filename url token w = (true, w', [MsgOk name folder])
    /\ files w' = <[ [folder; name] := total ]> (delete (tmp_path_of name) (files w))
    /\ files w' !! tmp_path_of name = None
    /\ folders w' = {[folder]} ∪ folders w
    /\ requests_sent w'
       = requests_sent w ++ [(url, authorization (get_session tid token w).1)].
Proof.
  intros Hsan Hext Hnew Hget Hopen Hstream Hmk Hrep total folder.
  rewrite (download_one_attempt _ _ _ _ _ name w Hsan Hext Hnew).
  destruct (get_session_frame tid token w) as (Hfiles & Hfolders & Hreq).
  set (s := (get_session tid token w).1) in *.
  set (w1 := (get_session tid token w).2) in *.
  pose proof (try_block_files name url s env w1) as Hf.
  pose proof (try_block_requests name url s env w1) as Hr.
  assert (exists w2, try_block name url s env w1
                     = (inr tt, w2, [MsgOk name folder])) as [w2 E].
  { rewrite try_block_unfold. cbv zeta. rewrite Hget, Hopen, Hstream. simpl.
    erewrite grow_lookup by apply lookup_insert_eq.
    rewrite Z.add_0_l, Hmk, Hrep. eexists. reflexivity. }
  rewrite E in Hf, Hr |- *. simpl in Hr. destruct Hf as (Hf1 & Hf2 & _).
  fold total folder in Hf1, Hf2.
  rewrite Hfiles in Hf1. rewrite Hfolders in Hf2. rewrite Hreq in Hr.
  exists w2. split_and!; [done | exact Hf1 | | exact Hf2 | exact Hr].
  rewrite Hf1. rewrite lookup_insert_ne by apply tmp_is_no_destination.
  apply lookup_delete_eq.
Qed.

Lemma download_stores_file_witness :
  exists w',
    download_one 0%nat Scenario.served (py "x/new lora.SafeTensors")
      (py "https://h/l") (py "tok") Scenario.w0
    = (true, w', [MsgOk (py "new lora.SafeTensors") (py "loras")])
    /\ files w' !! [py "loras"; py "new lora.SafeTensors"] = Some 66736.
Proof.
  destruct (download_stores_file 0%nat Scenario.served
              (py "x/new lora.SafeTensors") (py "https://h/l") (py "tok")
              (py "new lora.SafeTensors") Scenario.w0)
    as (w' & E & Hfiles & _); try reflexivity.
  - apply (bool_decide_unpack _). vm_compute. exact I.
  - exists w'. split; [exact E|]. rewrite Hfiles. reflexivity.
Defined.

Section StoredFacts.

Implicit Types (w : World) (env : Env) (name url token : pystr) (t : task).

(** A worker that returns [True] has passed the first two gates and leaves
    the file in a destination folder. *)
Lemma download_one_true_stored tid env filename url token w w' out :
  download_one tid env filename url token w = (true, w', out) ->
  exists name,
    sanitize_filename filename = Ok name
    /\ negb (bool_decide (extension name ∈ VALID_EXTENSIONS)) = false
    /\ file_already_exists name w' = true.
Proof.
  intros Hrun.
  unfold download_one in Hrun.
  destruct (sanitize_filename filename) as [name|]; [|done].
  exists name. destruct (negb _) eqn:Hext; [done|].
  destruct (file_already_exists name w) eqn:Hex.
  - injection Hrun as <- _. done.
  - pose proof (try_block_files name url (get_session tid token w).1 env
                  (get_session tid token w).2) as Hf.
    destruct (get_session tid token w) as [session w1]. simpl in Hf.
    destruct (try_block name url session env w1) as [[[e|[]] w2] out2];
      [done|].
    injection Hrun as <- _. destruct Hf as (Hf & _).
    split_and!; [done | done |].
    apply (already_exists name w2 _
             (destination_folder_cases name (foldr Z.add 0 (chunks env)))).
    rewrite Hf, lookup_insert_eq. done.
Qed.

(** A file that is not the temporary file of the call is kept. *)
Lemma download_one_keeps_files tid env filename url token w (q : path) (v : Z) :
  files w !! q = Some v ->
  (forall name, sanitize_filename filename = Ok name -> q <> tmp_path_of name) ->
  files (download_one tid env filename url token w).1.2 !! q = Some v.
Proof.
  intros Hq Htmp. unfold download_one.
  destruct (sanitize_filename filename) as [name|]; [|done].
  specialize (Htmp name eq_refl).
  destruct (negb _) eqn:Hext; [done|].
  destruct (file_already_exists name w) eqn:Hex; [done|].
  destruct (get_session_frame tid token w) as (Hfiles & _ & _).
  pose proof (try_block_files name url (get_session tid token w).1 env
                (get_session tid token w).2) as Hf.
  destruct (get_session tid token w) as [session w1]. simpl in Hf, Hfiles.
  destruct (try_block name url session env w1) as [[[e|[]] w2] out2]; simpl.
  - destruct Hf as [Hf _]. rewrite finally_remove_files.
    assert (files w2 !! q = Some v) as Hq2.
    { rewrite <- (lookup_delete_ne (files w2) (tmp_path_of name) q) by done.
      rewrite Hf, Hfiles. by rewrite lookup_delete_ne. }
    destruct (remove_raises env); [done|]. by rewrite lookup_delete_ne.
  - destruct Hf as (Hf & _). rewrite Hf, Hfiles.
    rewrite lookup_insert_ne.
    + by rewrite lookup_delete_ne.
    + intros <-.
      rewrite (not_already_exists name w _ Hex (destination_folder_cases _ _))
        in Hq. done.
Qed.

End StoredFacts.

(** X8.  The worker changes no file but the temporary one and the one it
    stores: a file at any other path, and so every file already in a
    destination folder, is still there with its size after the call,
    whatever the outcome. *)
Theorem download_keeps_stored_files
    (tid : thread) (env : Env) (filename url token : pystr) (w : World) :
  (forall q v,
     files w !! q = Some v ->
     (forall name, sanitize_filename filename = Ok name -> q <> tmp_path_of name) ->
     files (download_one tid env filename url token w).1.2 !! q = Some v)
  /\ (forall folder stored v,
        files w !! [folder; stored] = Some v ->
        files (download_one tid env filename url token w).1.2 !! [folder; stored]
        = Some v).
Proof.
  assert (forall q v,
     files w !! q = Some v ->
     (forall name, sanitize_filename filename = Ok name -> q <> tmp_path_of name) ->
     files (download_one tid env filename url token w).1.2 !! q = Some v) as H
    by (intros q v; apply download_one_keeps_files).
  split; [exact H|].
  intros folder stored v Hq. apply H; [done|].
  intros name _. apply tmp_is_no_destination.
Qed.

Lemma download_keeps_stored_files_witness :
  let w := mkWorld {[ [py "models"; py "base.safetensors"] := 2 ^ 32 ]}
                   ∅ ∅ 0 [] in
  files (download_one 0%nat Scenario.cut (py "lora.safetensors")
           (py "https://h/l") (py "tok") w).1.2
    !! [py "models"; py "base.safetensors"]
  = Some (2 ^ 32).
Proof.
  intros w.
  apply (proj2 (download_keeps_stored_files 0%nat Scenario.cut
                  (py "lora.safetensors") (py "https://h/l") (py "tok") w)).
  reflexivity.
Defined.

(** X9.  When the request itself fails (an HTTP error status, a timeout,
    any other request error), the worker returns [False] and reports it; one
    request has been sent, no folder is made and no file is written.  A
    file left at the temporary path by an earlier run is removed, unless the
    removal fails. *)
Theorem failed_request_stores_nothing
    (tid : thread) (env : Env) (filename url token name : pystr)
    (w : World) (e : exn) :
  sanitize_filename filename = Ok name ->
  extension name ∈ VALID_EXTENSIONS ->
  file_already_exists name w = false ->
  get_raises env = Some e ->
  exists w',
    download_one tid env filename url token w = (false, w', [fail_msg name e])
    /\ files w' = (if remove_raises env then files w
                   else delete (tmp_path_of name) (files w))
    /\ folders w' = folders w
    /\ requests_sent w'
       = requests_sent w ++ [(url, authorization (get_session tid token w).1)].
Proof.
  intros Hsan Hext Hnew Hget.
  rewrite (download_one_attempt _ _ _ _ _ name w Hsan Hext Hnew).
  destruct (get_session_frame tid token w) as (Hfiles & Hfolders & Hreq).
  rewrite try_block_unfold. cbv zeta. rewrite Hget.
  eexists. split; [reflexivity|].
  rewrite finally_remove_files, finally_remove_folders.
  destruct (finally_remove_frame (tmp_path_of name) env
              (log_request url (get_session tid token w).1
                 (get_session tid token w).2)) as (_ & _ & ->).
  simpl. by rewrite Hfiles, Hfolders, Hreq.
Qed.

Lemma failed_request_stores_nothing_witness :
  let w := mkWorld {[ [py "lora.safetensors.part"] := 12 ]} ∅ ∅ 0 [] in
  exists w',
    download_one 0%nat (Scenario.refused 404) (py "lora.safetensors")
      (py "https://h/l") (py "tok") w
    = (false, w', [MsgFailHTTP (py "lora.safetensors") (Some 404)])
    /\ files w' = ∅.
Proof.
  intros w.
  destruct (failed_request_stores_nothing 0%nat (Scenario.refused 404)
              (py "lora.safetensors") (py "https://h/l") (py "tok")
              (py "lora.safetensors") w (HTTPError (Some 404)))
    as (w' & E & Hfiles & _); try reflexivity.
  - apply (bool_decide_unpack _). vm_compute. exact I.
  - exists w'. split; [exact E|]. rewrite Hfiles. simpl.
    apply delete_singleton_eq.
Defined.

(** X10.  Once the worker has got past the existence test, it leaves no
    file at the temporary path in any outcome, success or failure, as long
    as the removal in the [finally] clause does not itself fail. *)
Theorem no_part_file_is_left
    (tid : thread) (env : Env) (filename url token name : pystr) (w : World) :
  sanitize_filename filename = Ok name ->
  extension name ∈ VALID_EXTENSIONS ->
  file_already_exists name w = false ->
  remove_raises env = false ->
  files (download_one tid env filename url token w).1.2 !! tmp_path_of name
  = None.
Proof.
  intros Hsan Hext Hnew Hrm.
  rewrite (download_one_attempt _ _ _ _ _ name w Hsan Hext Hnew).
  pose proof (try_block_files name url (get_session tid token w).1 env
                (get_session tid token w).2) as Hf.
  destruct (try_block _ _ _ _ _) as [[[e|[]] w2] out2]; simpl.
  - rewrite finally_remove_files, Hrm. apply lookup_delete_eq.
  - destruct Hf as (-> & _).
    rewrite lookup_insert_ne by apply tmp_is_no_destination.
    apply lookup_delete_eq.
Qed.

Lemma no_part_file_is_left_witness :
  let env := mkEnv None false [65536] None false true false in
  files (download_one 0%nat env (py "lora.safetensors") (py "https://h/l")
           (py "tok") Scenario.w0).1.2
    !! [py "lora.safetensors.part"]
  = None.
Proof.
  intros env.
  apply (no_part_file_is_left 0%nat env (py "lora.safetensors")
           (py "https://h/l") (py "tok") (py "lora.safetensors") Scenario.w0).
  - vm_compute; reflexivity.
  - apply (bool_decide_unpack _). vm_compute. exact I.
  - reflexivity.
  - reflexivity.
Defined.

(** ** Sessions and requests over a whole run *)

Section SessionInvariants.

(** A property of the thread-local store and of the number of sessions made
    that [get_session] keeps is kept by the worker, by an attempt, by the
    loop and by [main]: nothing else touches the two. *)
Variable token : pystr.
Variable P : gmap thread Session -> nat -> Prop.
Hypothesis get_session_keeps_P :
  forall tid w,
    P (thread_local w) (sessions_created w) ->
    P (thread_local (get_session tid token w).2)
      (sessions_created (get_session tid token w).2).

Lemma download_one_keeps_P tid env filename url w :
  P (thread_local w) (sessions_created w) ->
  P (thread_local (download_one tid env filename url token w).1.2)
    (sessions_created (download_one tid env filename url token w).1.2).
Proof.
  intros HP. unfold download_one.
  destruct (sanitize_filename filename) as [name|]; [|done].
  destruct (negb _); [done|].
  destruct (file_already_exists name w); [done|].
  specialize (get_session_keeps_P tid w HP).
  destruct (get_session tid token w) as [session w1].
  pose proof (try_block_frame name url session env w1) as Hf.
  destruct (try_block name url session env w1) as [[[e|[]] w2] out];
    destruct Hf as (Htl & Hsc & _); simpl in *.
  - destruct (finally_remove_frame (tmp_path_of name) env w2) as (-> & -> & _).
    by rewrite Htl, Hsc.
  - by rewrite Htl, Hsc.
Qed.

Lemma executor_map_keeps_P sched i pending w :
  P (thread_local w) (sessions_created w) ->
  P (thread_local (executor_map sched token i pending w).1.2)
    (sessions_created (executor_map sched token i pending w).1.2).
Proof.
  revert i w. induction pending as [|t pending IH]; intros i w HP; [done|].
  rewrite executor_map_cons. cbv zeta. cbn [fst snd].
  by apply IH, download_one_keeps_P.
Qed.

Lemma for_attempts_keeps_P sched max_threads retries n attempt pending w :
  P (thread_local w) (sessions_created w) ->
  P (thread_local (for_attempts sched token max_threads retries n attempt pending w).1.2)
    (sessions_created (for_attempts sched token max_threads retries n attempt pending w).1.2).
Proof.
  revert attempt pending w. induction n as [|n IH]; intros attempt pending w HP;
    [done|].
  rewrite for_attempts_succ. cbv zeta.
  destruct (max_threads <=? 0); [done|].
  pose proof (executor_map_keeps_P (sched attempt) 0 pending w HP) as HP1.
  destruct (failed _); cbn [fst snd]; [done|]. by apply IH.
Qed.

Lemma main_keeps_P args environ_token typed sched w :
  get_token environ_token typed = Some token ->
  P (thread_local w) (sessions_created w) ->
  P (thread_local (main args environ_token typed sched w).1.2)
    (sessions_created (main args environ_token typed sched w).1.2).
Proof.
  intros Htok HP. unfold main. rewrite Htok.
  destruct (read_url_file (url_file args)) as [[|t pairs] out0]; [done|].
  pose proof (for_attempts_keeps_P sched (max_threads args) (retries args)
                (Z.to_nat (retries args)) 1 (t :: pairs) w HP) as H.
  unfold retry_loop.
  by destruct (for_attempts _ _ _ _ _ _ _ _) as [[[|remaining|] w1] out1].
Qed.

End SessionInvariants.

Section RequestFacts.

Implicit Types (w : World) (token url : pystr) (pending : list task).

Lemma get_session_carries token tid w :
  sessions_carry token w ->
  authorization (get_session tid token w).1 = bearer token
  /\ sessions_carry token (get_session tid token w).2.
Proof.
  intros Hinv. unfold get_session.
  destruct (thread_local w !! tid) as [s|] eqn:E; simpl.
  - split; [by apply (Hinv tid) | done].
  - split; [done|]. intros tid' s'. simpl.
    destruct (decide (tid = tid')) as [<-|Hne].
    + rewrite lookup_insert_eq. by intros [= <-].
    + rewrite lookup_insert_ne by done. apply Hinv.
Qed.

Lemma get_session_distinct token tid w :
  sessions_distinct w -> sessions_distinct (get_session tid token w).2.
Proof.
  intros [Hlt Hinj]. unfold get_session.
  destruct (thread_local w !! tid) as [s|] eqn:E; simpl; [done|].
  split; simpl.
  - intros tid' s'. destruct (decide (tid = tid')) as [<-|Hne].
    + rewrite lookup_insert_eq. intros [= <-]. simpl. lia.
    + rewrite lookup_insert_ne by done. intros H%Hlt. lia.
  - intros t1 t2 s1 s2.
    destruct (decide (tid = t1)) as [<-|H1], (decide (tid = t2)) as [<-|H2];
      rewrite ?lookup_insert_eq, ?lookup_insert_ne by done; try done.
    + intros [= <-] H%Hlt. simpl. lia.
    + intros H%Hlt [= <-]. simpl. lia.
    + apply Hinj.
Qed.

Lemma download_one_carries tid env filename url token w :
  sessions_carry token w ->
  sessions_carry token (download_one tid env filename url token w).1.2.
Proof.
  intros H.
  exact (download_one_keeps_P token
           (fun tl _ => forall tid s, tl !! tid = Some s ->
                                      authorization s = bearer token)
           (fun tid w0 H0 => proj2 (get_session_carries token tid w0 H0))
           tid env filename url w H).
Qed.

Lemma executor_map_carries sched token i pending w :
  sessions_carry token w ->
  sessions_carry token (executor_map sched token i pending w).1.2.
Proof.
  intros H.
  exact (executor_map_keeps_P token
           (fun tl _ => forall tid s, tl !! tid = Some s ->
                                      authorization s = bearer token)
           (fun tid w0 H0 => proj2 (get_session_carries token tid w0 H0))
           sched i pending w H).
Qed.

(** The requests one worker call adds: none, or one for the URL of the
    task with the header of the session of the thread. *)
Lemma download_one_requests tid env filename url token w :
  exists l,
    requests_sent (download_one tid env filename url token w).1.2
    = requests_sent w ++ l
    /\ (l = [] \/ l = [(url, authorization (get_session tid token w).1)]).
Proof.
  unfold download_one.
  destruct (sanitize_filename filename) as [name|];
    [|exists []; by rewrite app_nil_r; auto].
  destruct (negb _); [exists []; by rewrite app_nil_r; auto|].
  destruct (file_already_exists name w); [exists []; by rewrite app_nil_r; auto|].
  destruct (get_session_frame tid token w) as (_ & _ & Hreq).
  pose proof (try_block_requests name url (get_session tid token w).1 env
                (get_session tid token w).2) as Hr.
  destruct (get_session tid token w) as [session w1]. simpl in Hreq, Hr |- *.
  exists [(url, authorization session)]. split; [|by right].
  destruct (try_block name url session env w1) as [[[e|[]] w2] out]; simpl in *.
  - destruct (finally_remove_frame (tmp_path_of name) env w2) as (_ & _ & ->).
    by rewrite Hr, Hreq.
  - by rewrite Hr, Hreq.
Qed.

Lemma executor_map_requests sched token i pending w :
  exists l,
    requests_sent (executor_map sched token i pending w).1.2
    = requests_sent w ++ l
    /\ (length l <= length pending)%nat
    /\ Forall (fun r => r.1 ∈ pending.*2) l
    /\ (sessions_carry token w -> Forall (fun r => r.2 = bearer token) l).
Proof.
  revert i w. induction pending as [|t pending IH]; intros i w.
  - exists []. simpl. rewrite app_nil_r. split_and!; auto.
  - rewrite executor_map_cons. cbv zeta. cbn [fst snd].
    destruct (download_one_requests (sched i).1 (sched i).2 t.1 t.2 token w)
      as (l1 & E1 & Hl1).
    set (w1 := (download_one (sched i).1 (sched i).2 t.1 t.2 token w).1.2) in *.
    destruct (IH (S i) w1) as (l2 & E2 & Hlen & Hurl & Hcarry).
    exists (l1 ++ l2). split_and!.
    + rewrite E2, E1. by rewrite app_assoc.
    + rewrite length_app. simpl. destruct Hl1 as [-> | ->]; simpl; lia.
    + rewrite fmap_cons. apply Forall_app. split.
      * destruct Hl1 as [-> | ->]; [done|]. apply Forall_singleton. simpl.
        apply elem_of_cons. by left.
      * eapply Forall_impl; [exact Hurl|]. intros r Hr. simpl in Hr.
        apply elem_of_cons. by right.
    + intros Hinv. apply Forall_app. split.
      * destruct Hl1 as [-> | ->]; [done|]. apply Forall_singleton. simpl.
        by apply get_session_carries.
      * apply Hcarry. unfold w1. by apply download_one_carries.
Qed.

Lemma failed_length results : (length (failed results) <= length results)%nat.
Proof.
  etrans; [apply sublist_length, failed_sublist|]. by rewrite length_fmap.
Qed.

Lemma for_attempts_requests sched token max_threads retries n attempt pending w :
  exists l,
    requests_sent (for_attempts sched token max_threads retries n attempt pending w).1.2
    = requests_sent w ++ l
    /\ (length l <= n * length pending)%nat
    /\ Forall (fun r => r.1 ∈ pending.*2) l
    /\ (sessions_carry token w -> Forall (fun r => r.2 = bearer token) l).
Proof.
  revert attempt pending w. induction n as [|n IH]; intros attempt pending w.
  - exists []. simpl. rewrite app_nil_r. split_and!; auto.
  - rewrite for_attempts_succ. cbv zeta.
    destruct (max_threads <=? 0).
    { exists []. cbn [fst snd]. rewrite app_nil_r.
      split_and!; [done | simpl; lia | done | done]. }
    destruct (executor_map_requests (sched attempt) token 0 pending w)
      as (l1 & E1 & Hlen1 & Hurl1 & Hcarry1).
    pose proof (executor_map_tasks (sched attempt) token 0 pending w) as Htasks.
    pose proof (failed_sublist (executor_map (sched attempt) token 0 pending w).1.1)
      as Hsub.
    pose proof (failed_length (executor_map (sched attempt) token 0 pending w).1.1)
      as Hfl.
    rewrite Htasks in Hsub.
    rewrite <- (length_fmap fst), Htasks in Hfl.
    set (r := executor_map (sched attempt) token 0 pending w) in *.
    destruct (failed r.1.1) as [|t ts] eqn:Hf; cbn [fst snd].
    + exists l1. split_and!; [done | nia | done | done].
    + destruct (IH (attempt + 1) (t :: ts) r.1.2)
        as (l2 & E2 & Hlen2 & Hurl2 & Hcarry2).
      exists (l1 ++ l2). split_and!.
      * rewrite E2, E1. by rewrite app_assoc.
      * rewrite length_app. nia.
      * apply Forall_app. split; [done|].
        eapply Forall_impl; [exact Hurl2|]. intros x Hx.
        apply (elem_of_sublist _ _ _ Hx). by apply fmap_sublist.
      * intros Hinv. apply Forall_app. split; [by apply Hcarry1|].
        apply Hcarry2. unfold r. by apply executor_map_carries.
Qed.

End RequestFacts.

(** X11.  When no session made before carries another header, every
    request a run of [main] sends carries the header of the token that
    [get_token] returned: [Bearer] and the token, or no header when the
    token is empty. *)
Theorem every_request_carries_the_token
    (args : Args) (environ_token : pystr) (typed : option pystr)
    (sched : Schedule) (w : World) (token : pystr) :
  get_token environ_token typed = Some token ->
  sessions_carry token w ->
  exists sent,
    requests_sent (main args environ_token typed sched w).1.2
    = requests_sent w ++ sent
    /\ Forall (fun r => r.2 = bearer token) sent.
Proof.
  intros Htok Hinv. unfold main. rewrite Htok.
  destruct (read_url_file (url_file args)) as [[|t pairs] out0].
  { exists []. by rewrite app_nil_r. }
  destruct (for_attempts_requests sched token (max_threads args) (retries args)
              (Z.to_nat (retries args)) 1 (t :: pairs) w)
    as (l & E & _ & _ & Hcarry).
  exists l. split; [|by apply Hcarry].
  unfold retry_loop.
  by destruct (for_attempts _ _ _ _ _ _ _ _) as [[[|remaining|] w1] out1].
Qed.

Lemma every_request_carries_the_token_witness :
  exists sent,
    requests_sent (main Scenario.args [] (Some (py " tok ")) Scenario.sched
                     Scenario.w0).1.2
    = sent
    /\ Forall (fun r => r.2 = Some (py "Bearer tok")) sent.
Proof.
  destruct (every_request_carries_the_token Scenario.args [] (Some (py " tok "))
              Scenario.sched Scenario.w0 (py "tok"))
    as (sent & E & H).
  - vm_compute; reflexivity.
  - intros tid s Hs. simpl in Hs. by rewrite lookup_empty in Hs.
  - exists sent. split; [exact E | exact H].
Defined.

(** X12.  A run of [main] only adds to the requests sent: at most one per
    entry and attempt, so at most [retries] times the number of entries (none
    at all when [retries] is not positive), and each of them to a URL of the
    input list. *)
Theorem requests_are_bounded
    (args : Args) (environ_token : pystr) (typed : option pystr)
    (sched : Schedule) (w : World) :
  exists sent,
    requests_sent (main args environ_token typed sched w).1.2
    = requests_sent w ++ sent
    /\ (length sent
        <= Z.to_nat (retries args) * length (read_url_file (url_file args)).1)%nat
    /\ Forall (fun r => r.1 ∈ (read_url_file (url_file args)).1.*2) sent.
Proof.
  unfold main.
  destruct (get_token environ_token typed) as [token|].
  2: { exists []. rewrite app_nil_r. split_and!; [done | simpl; lia | done]. }
  destruct (read_url_file (url_file args)) as [[|t pairs] out0].
  { exists []. rewrite app_nil_r. split_and!; [done | simpl; lia | done]. }
  destruct (for_attempts_requests sched token (max_threads args) (retries args)
              (Z.to_nat (retries args)) 1 (t :: pairs) w)
    as (l & E & Hlen & Hurl & _).
  exists l. cbn [fst]. split_and!; [|done|done].
  unfold retry_loop.
  by destruct (for_attempts _ _ _ _ _ _ _ _) as [[[|remaining|] w1] out1].
Qed.

(** X13.  Each thread has a session of its own: when the sessions of the
    store are distinct and numbered below the count of sessions made, they
    still are after a run of [main], whatever threads the attempts use. *)
Theorem threads_do_not_share_sessions
    (args : Args) (environ_token : pystr) (typed : option pystr)
    (sched : Schedule) (w : World) :
  sessions_distinct w ->
  sessions_distinct (main args environ_token typed sched w).1.2.
Proof.
  intros Hinv.
  destruct (get_token environ_token typed) as [token|] eqn:Htok.
  - exact (main_keeps_P token
             (fun tl n =>
                (forall tid s, tl !! tid = Some s -> (sid s < n)%nat)
                /\ (forall t1 t2 s1 s2,
                      tl !! t1 = Some s1 -> tl !! t2 = Some s2 ->
                      sid s1 = sid s2 -> t1 = t2))
             (fun tid w0 H0 => get_session_distinct token tid w0 H0)
             args environ_token typed sched w Htok Hinv).
  - unfold main. by rewrite Htok.
Qed.

Lemma threads_do_not_share_sessions_witness :
  sessions_distinct
    (main Scenario.args (py "tok") None Scenario.sched Scenario.w0).1.2.
Proof.
  apply (threads_do_not_share_sessions Scenario.args (py "tok") None
           Scenario.sched Scenario.w0).
  split.
  - intros tid s Hs. simpl in Hs. by rewrite lookup_empty in Hs.
  - intros t1 t2 s1 s2 Hs. simpl in Hs. by rewrite lookup_empty in Hs.
Defined.

(** ** What a whole run leaves *)

Section RunFacts.

Implicit Types (w : World) (pending pairs : list task) (t : task)
  (token : pystr).

Lemma already_exists_inv name w :
  file_already_exists name w = true ->
  exists folder,
    folder ∈ [py "embeddings"; py "loras"; py "models"]
    /\ is_Some (files w !! [folder; name]).
Proof.
  unfold file_already_exists, exists_at. simpl.
  rewrite !orb_true_iff, !bool_decide_eq_true.
  intros [H | [H | [H | H]]]; [| | | done];
    eexists; (split; [|exact H]); rewrite !elem_of_cons; auto.
Qed.

Lemma present_kept tid env filename url token w t :
  present t w -> present t (download_one tid env filename url token w).1.2.
Proof.
  intros (name & Hsan & (folder & Hfolder & [v Hv])%already_exists_inv).
  exists name. split; [done|]. apply (already_exists name _ folder Hfolder).
  exists v. apply download_one_keeps_files; [done|].
  intros name' _. apply tmp_is_no_destination.
Qed.

Lemma executor_map_present sched token i pending w t :
  present t w \/ (t, true) ∈ (executor_map sched token i pending w).1.1 ->
  present t (executor_map sched token i pending w).1.2.
Proof.
  revert i w. induction pending as [|t0 pending IH]; intros i w.
  - simpl. intros [H | H]; [done | by apply elem_of_nil in H].
  - rewrite executor_map_cons. cbv zeta. cbn [fst snd].
    intros [H | H].
    + apply IH. left. by apply present_kept.
    + apply elem_of_cons in H as [E | H]; [|apply IH; by right].
      apply IH. left. injection E as -> Hok.
      destruct (download_one (sched i).1 (sched i).2 t0.1 t0.2 token w)
        as [[ok w1] out] eqn:Hrun.
      simpl in Hok |- *. subst ok.
      destruct (download_one_true_stored _ _ _ _ _ _ _ _ Hrun)
        as (name & Hsan & _ & Hex).
      by exists name.
Qed.

Lemma result_of_pending sched token i pending w t :
  t ∈ pending ->
  (t, true) ∈ (executor_map sched token i pending w).1.1
  \/ t ∈ failed (executor_map sched token i pending w).1.1.
Proof.
  intros Hin. rewrite <- (executor_map_tasks sched token i pending w) in Hin.
  apply list_elem_of_fmap in Hin as ([t' ok] & -> & Hin). simpl.
  destruct ok; [by left|]. right. by apply elem_of_failed.
Qed.

Lemma for_attempts_all_stored sched token max_threads retries n attempt pending pairs w :
  (forall t, t ∈ pairs -> t ∈ pending \/ present t w) ->
  (for_attempts sched token max_threads retries n attempt pending w).1.1 = AllSucceeded ->
  forall t, t ∈ pairs ->
    present t (for_attempts sched token max_threads retries n attempt pending w).1.2.
Proof.
  revert attempt pending w. induction n as [|n IH]; intros attempt pending w Hinv;
    [done|].
  rewrite for_attempts_succ. cbv zeta.
  destruct (max_threads <=? 0); [by simpl|].
  assert (forall t, t ∈ pairs ->
            t ∈ failed (executor_map (sched attempt) token 0 pending w).1.1
            \/ present t (executor_map (sched attempt) token 0 pending w).1.2)
    as Hnext.
  { intros t [Hp | Hp]%Hinv.
    - destruct (result_of_pending (sched attempt) token 0 pending w t Hp)
        as [Hok | Hfail]; [|by left].
      right. apply executor_map_present. by right.
    - right. apply executor_map_present. by left. }
  destruct (failed _) as [|t' ts] eqn:Hf; cbn [fst snd].
  - intros _ t [Hin | Hp]%Hnext; [by apply elem_of_nil in Hin | done].
  - by apply IH.
Qed.




End RunFacts.

(** X14.  With [--retries] zero or negative and a list that has entries,
    [main] makes no attempt: nothing is requested or written, every filename
    of the list is in the final summary and the exit code is 1. *)
Theorem no_attempt_without_retries
    (args : Args) (environ_token : pystr) (typed : option pystr)
    (sched : Schedule) (w : World) (token : pystr) :
  get_token environ_token typed = Some token ->
  retries args <= 0 ->
  (read_url_file (url_file args)).1 <> [] ->
  (main args environ_token typed sched w).1.1 = 1
  /\ (main args environ_token typed sched w).1.2 = w
  /\ failure_summary (main args environ_token typed sched w).2
     = (read_url_file (url_file args)).1.*1.
Proof.
  intros Htok Hretries Hne.
  destruct (main_outcome args environ_token typed sched w token Htok Hne)
    as [-> ->].
  unfold main, retry_loop. rewrite Htok.
  destruct (read_url_file (url_file args)) as [[|t pairs] out0]; [done|].
  replace (Z.to_nat (retries args)) with 0%nat by lia. done.
Qed.

Lemma no_attempt_without_retries_witness :
  let args := mkArgs [py "a.pt - https://h/a"; py "b.pt - https://h/b"] 5 0 in
  failure_summary (main args (py "tok") None Scenario.sched Scenario.w0).2
  = [py "a.pt"; py "b.pt"].
Proof.
  intros args.
  destruct (no_attempt_without_retries args (py "tok") None Scenario.sched
              Scenario.w0 (py "tok")) as (_ & _ & ->).
  - reflexivity.
  - simpl. lia.
  - vm_compute. discriminate.
  - vm_compute. reflexivity.
Defined.

(** X15.  When [main] ends with exit code 0, every entry of the input list
    has a filename that sanitizes and a file of that sanitized name in one of
    the folders [embeddings], [loras], [models]. *)
Theorem exit_zero_means_all_stored
    (args : Args) (environ_token : pystr) (typed : option pystr)
    (sched : Schedule) (w : World) :
  (main args environ_token typed sched w).1.1 = 0 ->
  forall t, t ∈ (read_url_file (url_file args)).1 ->
    present t (main args environ_token typed sched w).1.2.
Proof.
  unfold main.
  destruct (get_token environ_token typed) as [token|]; [|done].
  destruct (read_url_file (url_file args)) as [[|t0 pairs] out0]; [done|].
  cbn [fst]. unfold retry_loop.
  pose proof (for_attempts_all_stored sched token (max_threads args) (retries args)
                (Z.to_nat (retries args)) 1 (t0 :: pairs) (t0 :: pairs) w) as H.
  destruct (for_attempts _ _ _ _ _ _ _ _) as [[[|remaining|] w1] out1];
    cbn [fst snd] in *; [|done|done].
  intros _ t Hin. apply H; [by left | done | done].
Qed.

Lemma exit_zero_means_all_stored_witness :
  let args := mkArgs [py "a.pt - https://h/a"; py "A.PT - https://h/a2"] 5 1 in
  present (py "A.PT", py "https://h/a2")
    (main args (py "tok") None (fun _ i => (i, Scenario.served)) Scenario.w0).1.2.
Proof.
  intros args.
  apply (exit_zero_means_all_stored args (py "tok") None
           (fun _ i => (i, Scenario.served)) Scenario.w0).
  - vm_compute; reflexivity.
  - apply (bool_decide_unpack _). vm_compute. exact I.
Defined.





Section WorldInvariants.

(** A property of the world that every worker call keeps is kept by an
    attempt, by a sequence of calls, by the loop and by [main]. *)
Variable Q : World -> Prop.
Hypothesis download_one_keeps_Q :
  forall tid env filename url token w,
    Q w -> Q (download_one tid env filename url token w).1.2.

Lemma executor_map_keeps_Q sched token i pending w :
  Q w -> Q (executor_map sched token i pending w).1.2.
Proof.
  revert i w. induction pending as [|t pending IH]; intros i w HQ; [done|].
  rewrite executor_map_cons. cbv zeta. cbn [fst snd].
  by apply IH, download_one_keeps_Q.
Qed.

Lemma run_calls_keeps_Q calls w : Q w -> Q (run_calls calls w).
Proof.
  revert w. unfold run_calls.
  induction calls as [|c calls IH]; intros w HQ; [done|].
  simpl. by apply IH, download_one_keeps_Q.
Qed.

Lemma for_attempts_keeps_Q sched token max_threads retries n attempt pending w :
  Q w -> Q (for_attempts sched token max_threads retries n attempt pending w).1.2.
Proof.
  revert attempt pending w. induction n as [|n IH]; intros attempt pending w HQ;
    [done|].
  rewrite for_attempts_succ. cbv zeta.
  destruct (max_threads <=? 0); [done|].
  pose proof (executor_map_keeps_Q (sched attempt) token 0 pending w HQ) as HQ1.
  destruct (failed _); cbn [fst snd]; [done|]. by apply IH.
Qed.

Lemma main_keeps_Q args environ_token typed sched w :
  Q w -> Q (main args environ_token typed sched w).1.2.
Proof.
  intros HQ. unfold main.
  destruct (get_token environ_token typed) as [token|]; [|done].
  destruct (read_url_file (url_file args)) as [[|t pairs] out0]; [done|].
  pose proof (for_attempts_keeps_Q sched token (max_threads args) (retries args)
                (Z.to_nat (retries args)) 1 (t :: pairs) w HQ) as H.
  unfold retry_loop.
  by destruct (for_attempts _ _ _ _ _ _ _ _) as [[[|remaining|] w1] out1].
Qed.

End WorldInvariants.

Section PlacementFacts.

Implicit Types (w : World) (env : Env) (name url token folder : pystr).

(** The folders after the [try] block: those before, and at most the one
    the size selects. *)
Lemma try_block_folders name url session env w :
  folders (try_block name url session env w).1.2 = folders w
  \/ exists size,
       folders (try_block name url session env w).1.2
       = {[destination_folder name size]} ∪ folders w.
Proof.
  rewrite try_block_unfold. cbv zeta.
  destruct (get_raises env); [by left|].
  destruct (open_raises env); [by left|].
  destruct (stream_raises env); [by left|].
  destruct (files _ !! _) as [size|]; [|by left].
  destruct (makedirs_raises env); [by left|].
  destruct (replace_raises env); right; by exists size.
Qed.

Lemma download_one_folders tid env filename url token w :
  folders (download_one tid env filename url token w).1.2 = folders w
  \/ exists folder,
       folder ∈ [py "embeddings"; py "loras"; py "models"]
       /\ folders (download_one tid env filename url token w).1.2
          = {[folder]} ∪ folders w.
Proof.
  unfold download_one.
  destruct (sanitize_filename filename) as [name|]; [|by left].
  destruct (negb _); [by left|].
  destruct (file_already_exists name w); [by left|].
  destruct (get_session_frame tid token w) as (_ & Hfolders & _).
  pose proof (try_block_folders name url (get_session tid token w).1 env
                (get_session tid token w).2) as Hf.
  destruct (get_session tid token w) as [session w1]. simpl in Hf, Hfolders.
  rewrite Hfolders in Hf.
  assert (forall w2 : World,
            folders w2 = folders (try_block name url session env w1).1.2 ->
            folders w2 = folders w
            \/ exists folder,
                 folder ∈ [py "embeddings"; py "loras"; py "models"]
                 /\ folders w2 = {[folder]} ∪ folders w) as Hcases.
  { intros w2 ->. destruct Hf as [-> | [size ->]]; [by left|].
    right. eexists. split; [apply destination_folder_cases | done]. }
  destruct (try_block name url session env w1) as [[[e|[]] w2] out];
    simpl in *; apply Hcases; [|done].
  apply finally_remove_folders.
Qed.

(** A file found in a folder after a worker call was there before, or is
    the file of the call: its name is the sanitized name, its extension is
    accepted and its folder is the one [destination_folder] gives for its
    size. *)
Lemma download_one_new_file tid env filename url token w folder stored v :
  files (download_one tid env filename url token w).1.2 !! [folder; stored]
  = Some v ->
  files w !! [folder; stored] = Some v
  \/ (sanitize_filename filename = Ok stored
      /\ extension stored ∈ VALID_EXTENSIONS
      /\ folder = destination_folder stored v).
Proof.
  unfold download_one.
  destruct (sanitize_filename filename) as [name|]; [|by left].
  destruct (negb _) eqn:Hext; [by left|].
  destruct (file_already_exists name w); [by left|].
  destruct (get_session_frame tid token w) as (Hfiles & _ & _).
  pose proof (try_block_files name url (get_session tid token w).1 env
                (get_session tid token w).2) as Hf.
  destruct (get_session tid token w) as [session w1]. simpl in Hf, Hfiles.
  rewrite Hfiles in Hf.
  destruct (try_block name url session env w1) as [[[e|[]] w2] out]; simpl.
  - destruct Hf as [Hf _]. rewrite finally_remove_files. intros Hq. left.
    rewrite <- (lookup_delete_ne (files w) (tmp_path_of name) [folder; stored])
      by done.
    rewrite <- Hf. rewrite lookup_delete_ne by done.
    destruct (remove_raises env); [done|].
    by rewrite lookup_delete_ne in Hq by done.
  - destruct Hf as (-> & _).
    destruct (decide ([destination_folder name (foldr Z.add 0 (chunks env)); name]
                      = [folder; stored])) as [E | Hne].
    + rewrite E, lookup_insert_eq. intros [= <-]. right.
      injection E as <- <-. split_and!; [done | | done].
      apply negb_false_iff in Hext. by apply bool_decide_eq_true in Hext.
    + rewrite lookup_insert_ne by done.
      rewrite lookup_delete_ne by done. by left.
Qed.

End PlacementFacts.

(** X7.  When the worker returns [True], the file is in one of the three
    folders under its sanitized name, and from then on, whatever other
    worker calls come in between, a call for that filename returns [True] at
    the existence test, on any thread and whatever the network would do,
    without sending a request or changing anything. *)
Theorem downloaded_file_is_not_requested_again
    (tid : thread) (env : Env) (filename url token : pystr)
    (w w' : World) (out : list msg) :
  download_one tid env filename url token w = (true, w', out) ->
  exists name,
    sanitize_filename filename = Ok name
    /\ file_already_exists name w' = true
    /\ forall calls tid' env' url' token',
         download_one tid' env' filename url' token' (run_calls calls w')
         = (true, run_calls calls w', [MsgExists name]).
Proof.
  intros Hrun.
  destruct (download_one_true_stored _ _ _ _ _ _ _ _ Hrun)
    as (name & Hsan & Hext & Hex).
  exists name. split_and!; [done | done |].
  intros calls tid' env' url' token'.
  assert (present (filename, url) (run_calls calls w')) as (name' & Hsan' & Hex').
  { apply (run_calls_keeps_Q (present (filename, url))).
    - intros tid0 env0 filename0 url0 token0 w0. apply present_kept.
    - by exists name. }
  simpl in Hsan'. rewrite Hsan in Hsan'. injection Hsan' as <-.
  unfold download_one. by rewrite Hsan, Hext, Hex'.
Qed.

Lemma downloaded_file_is_not_requested_again_witness :
  let w' := (download_one 0%nat Scenario.served (py "a.pt") (py "https://h/a")
               (py "tok") Scenario.w0).1.2 in
  let calls := [mkCall 2%nat Scenario.cut Scenario.B (py "tok")] in
  download_one 1%nat (Scenario.refused 500) (py "a.pt") (py "https://h/a")
    (py "other") (run_calls calls w')
  = (true, run_calls calls w', [MsgExists (py "a.pt")]).
Proof.
  intros w' calls.
  destruct (downloaded_file_is_not_requested_again 0%nat Scenario.served
              (py "a.pt") (py "https://h/a") (py "tok") Scenario.w0 w'
              [MsgOk (py "a.pt") (py "embeddings")])
    as (name & Hsan & _ & Hagain).
  - vm_compute; reflexivity.
  - assert (name = py "a.pt") as ->.
    { assert (sanitize_filename (py "a.pt") = Ok (py "a.pt")) as E
        by (vm_compute; reflexivity).
      rewrite E in Hsan. by injection Hsan. }
    apply Hagain.
Defined.

(** X18.  The token of the environment variable, when it is not empty, is
    used as it stands and the prompt plays no part; a typed token is
    trimmed, and when it is blank the run sends every request without an
    Authorization header. *)
Theorem token_comes_from_environment_first
    (args : Args) (sched : Schedule) (w : World) :
  (forall environ_token typed,
     environ_token <> [] ->
     get_token environ_token typed = Some environ_token
     /\ main args environ_token typed sched w
        = main args environ_token None sched w)
  /\ (forall typed,
        get_token [] (Some typed) = Some (strip isspace typed))
  /\ (forall typed,
        forallb isspace typed = true ->
        sessions_carry [] w ->
        exists sent,
          requests_sent (main args [] (Some typed) sched w).1.2
          = requests_sent w ++ sent
          /\ Forall (fun r => r.2 = None) sent).
Proof.
  split_and!.
  - intros environ_token typed Hne.
    assert (forall ty, get_token environ_token ty = Some environ_token) as H.
    { intros ty. unfold get_token. by destruct environ_token. }
    split; [apply H|]. unfold main. by rewrite !H.
  - done.
  - intros typed Hblank Hinv. unfold main, get_token.
    rewrite (proj2 (strip_nil_iff isspace typed) Hblank).
    destruct (read_url_file (url_file args)) as [[|t pairs] out0].
    { exists []. by rewrite app_nil_r. }
    destruct (for_attempts_requests sched [] (max_threads args) (retries args)
                (Z.to_nat (retries args)) 1 (t :: pairs) w)
      as (l & E & _ & _ & Hcarry).
    exists l. split; [|by apply Hcarry].
    unfold retry_loop.
    by destruct (for_attempts _ _ _ _ _ _ _ _) as [[[|remaining|] w1] out1].
Qed.

Lemma token_comes_from_environment_first_witness :
  exists sent,
    requests_sent (main Scenario.args [] (Some (py "  ")) Scenario.sched
                     Scenario.w0).1.2
    = sent
    /\ Forall (fun r => r.2 = None) sent.
Proof.
  destruct (token_comes_from_environment_first Scenario.args Scenario.sched
              Scenario.w0) as (_ & _ & H).
  destruct (H (py "  ")) as (sent & E & Hsent).
  - reflexivity.
  - intros tid s Hs. simpl in Hs. by rewrite lookup_empty in Hs.
  - exists sent. split; [exact E | exact Hsent].
Defined.

(** X19.  A run of [main] removes and changes no file that is in a folder:
    each is there at the end with the size it had.  The folders made are
    kept, and the run makes no folder other than [embeddings], [loras] and
    [models]. *)
Theorem main_keeps_stored_files
    (args : Args) (environ_token : pystr) (typed : option pystr)
    (sched : Schedule) (w : World) :
  (forall folder stored v,
     files w !! [folder; stored] = Some v ->
     files (main args environ_token typed sched w).1.2 !! [folder; stored]
     = Some v)
  /\ folders w ⊆ folders (main args environ_token typed sched w).1.2
  /\ folders (main args environ_token typed sched w).1.2
     ⊆ folders w ∪ {[py "embeddings"; py "loras"; py "models"]}.
Proof.
  apply (main_keeps_Q
           (fun w' =>
              (forall folder stored v,
                 files w !! [folder; stored] = Some v ->
                 files w' !! [folder; stored] = Some v)
              /\ folders w ⊆ folders w'
              /\ folders w' ⊆ folders w ∪ {[py "embeddings"; py "loras"; py "models"]})).
  - intros tid env filename url token w0 (Hfiles & Hsub & Hsup). split_and!.
    + intros folder stored v Hv. apply download_one_keeps_files.
      * by apply Hfiles.
      * intros name _. apply tmp_is_no_destination.
    + destruct (download_one_folders tid env filename url token w0)
        as [-> | (folder & _ & ->)]; set_solver.
    + destruct (download_one_folders tid env filename url token w0)
        as [-> | (folder & Hfolder & ->)]; [done|].
      intros x [->%elem_of_singleton | Hx]%elem_of_union; [|by apply Hsup].
      apply elem_of_union_r. rewrite !elem_of_union, !elem_of_singleton.
      rewrite !elem_of_cons, elem_of_nil in Hfolder.
      destruct Hfolder as [-> | [-> | [-> | []]]]; auto.
  - split_and!; [done | done | set_solver].
Qed.

Lemma main_keeps_stored_files_witness :
  let w := mkWorld {[ [py "models"; py "base.safetensors"] := 2 ^ 32 ]}
                   ∅ ∅ 0 [] in
  files (main Scenario.args (py "tok") None Scenario.sched w).1.2
    !! [py "models"; py "base.safetensors"]
  = Some (2 ^ 32).
Proof.
  intros w.
  apply (proj1 (main_keeps_stored_files Scenario.args (py "tok") None
                  Scenario.sched w)).
  reflexivity.
Defined.

(** X20.  When the entries of the input list that sanitize have pairwise
    distinct sanitized names, so that no two workers of an attempt share a
    [.part] path or a destination, every file that is in a folder after a run
    of [main] and was not there before has a name that [sanitize_filename]
    returned, with an accepted extension, and is in the folder that
    [destination_folder] gives for that name and the size of the file. *)
Theorem new_files_are_classified
    (args : Args) (environ_token : pystr) (typed : option pystr)
    (sched : Schedule) (w : World) (folder stored : pystr) (v : Z) :
  NoDup (sanitized_names (read_url_file (url_file args)).1) ->
  files (main args environ_token typed sched w).1.2 !! [folder; stored]
  = Some v ->
  files w !! [folder; stored] = Some v
  \/ ((exists raw, sanitize_filename raw = Ok stored)
      /\ extension stored ∈ VALID_EXTENSIONS
      /\ folder = destination_folder stored v).
Proof.
  intros _. revert folder stored v.
  apply (main_keeps_Q
           (fun w' =>
              forall folder stored v,
                files w' !! [folder; stored] = Some v ->
                files w !! [folder; stored] = Some v
                \/ ((exists raw, sanitize_filename raw = Ok stored)
                    /\ extension stored ∈ VALID_EXTENSIONS
                    /\ folder = destination_folder stored v))).
  - intros tid env filename url token w0 HQ folder stored v Hv.
    apply download_one_new_file in Hv as [Hv | (Hsan & Hext & Hfolder)].
    + by apply HQ.
    + right. split_and!; [by exists filename | done | done].
  - intros folder stored v Hv. by left.
Qed.

Lemma new_files_are_classified_witness :
  py "loras" = destination_folder (py "b.safetensors") 66736.
Proof.
  destruct (new_files_are_classified Scenario.args (py "tok") None
              Scenario.sched Scenario.w0 (py "loras") (py "b.safetensors") 66736)
    as [H | (_ & _ & H)].
  - apply (bool_decide_unpack _). vm_compute. exact I.
  - vm_compute; reflexivity.
  - discriminate H.
  - exact H.
Defined.
